(** * Movie recommender: ranking, metadata fetch, batch enrichment, cards

    A shallow embedding of [main.py]: the ranker [recommend], the metadata
    fetcher [getMovieData], the batch orchestrator [getAllMovies] built on
    [asyncio.gather], and the card rendering of [handle_card_data] and
    [main].  Python values, exceptions and the printed lines are modelled
    explicitly; the properties of the design document are stated and settled
    against these definitions. *)

From Stdlib Require Import Ascii String QArith Qpower Qcanon.
From stdpp Require Import base numbers strings list sorting gmap.

Set Warnings "-register-all".
Close Scope Q_scope.
Close Scope Qc_scope.
Local Open Scope Z_scope.

(** ** Python exceptions and the exception monad *)

(** The exception classes that can reach the modelled code.  All of them
    derive from [Exception], so an [except Exception] clause catches each. *)
Inductive PyExc :=
| IndexError
| TypeError
| ValueError
| AttributeError
| OverflowError
| ClientError        (* aiohttp.ClientError: connection refused, reset, ... *)
| TimeoutError       (* asyncio.TimeoutError *)
| ContentTypeError   (* aiohttp: the body is not declared as JSON *)
| JSONDecodeError.   (* json: the body does not decode *)

(** A Python computation either returns a value or raises. *)
Inductive exc (A : Type) :=
| Ok (a : A)
| Raise (e : PyExc).
Arguments Ok {A} a.
Arguments Raise {A} e.

#[global] Instance exc_ret : MRet exc := λ A a, Ok a.
#[global] Instance exc_bind : MBind exc := λ A B f m,
  match m with
  | Ok a => f a
  | Raise e => Raise e
  end.

Definition returns {A} (m : exc A) : bool :=
  match m with Ok _ => true | Raise _ => false end.

(** ** Python values *)

(** A Python [str] is kept as the bytes of its UTF-8 form: a [string] of
    Rocq.  Equality and the search of one text in another are the same on
    the bytes as on the characters. *)

(** A Python [float], an IEEE double.  A finite double is written as the
    decimal [(-1)^neg * m * 10^e] that it is equal to (every double is such
    a decimal); the conversions below produce doubles only, with [e <= 0]
    and no removable factor 10 in [m]. *)
Inductive PyFloat :=
| FDec (neg : bool) (m : N) (e : Z)
| FInf (neg : bool)
| FNaN.

(** The values a decoded JSON body (or an argument) can be. *)
Inductive PyVal :=
| PyNone
| PyBool (b : bool)
| PyInt (z : Z)
| PyFlt (f : PyFloat)
| PyStr (s : string)
| PyList (l : list PyVal)
| PyDict (d : gmap string PyVal).

(** [d.get(k)]: the value under [k], [None] when the key is missing; a
    value that is not a mapping has no [get] attribute. *)
Definition py_get (data : PyVal) (k : string) : exc PyVal :=
  match data with
  | PyDict d => Ok (default PyNone (d !! k))
  | _ => Raise AttributeError
  end.

(** ** [float(x)] *)

Definition digit_of (c : ascii) : option N :=
  let n := N_of_ascii c in
  if ((48 <=? n) && (n <=? 57))%N then Some (n - 48)%N else None.

(** [digit (["_"] digit)*], continuing the number [v] with [k] digits read. *)
Fixpoint digits_more (cs : list ascii) (v : N) (k : nat) : N * nat * list ascii :=
  match cs with
  | [] => (v, k, [])
  | c :: cs' =>
    match digit_of c with
    | Some d => digits_more cs' (10 * v + d)%N (S k)
    | None =>
      if Ascii.eqb c "_"%char then
        match cs' with
        | c2 :: cs'' =>
          match digit_of c2 with
          | Some d => digits_more cs'' (10 * v + d)%N (S k)
          | None => (v, k, cs)
          end
        | [] => (v, k, cs)
        end
      else (v, k, cs)
    end
  end.

(** [digitpart]: at least one digit. *)
Definition digitpart (cs : list ascii) (v : N) : option (N * nat * list ascii) :=
  match cs with
  | c :: cs' =>
    match digit_of c with
    | Some d => Some (digits_more cs' (10 * v + d)%N 1%nat)
    | None => None
    end
  | [] => None
  end.

(** [number ::= [digitpart] "." digitpart | digitpart ["."]]: mantissa,
    decimal exponent and the unread rest. *)
Definition number (cs : list ascii) : option (N * Z * list ascii) :=
  match digitpart cs 0%N with
  | Some (ip, _, r1) =>
    match r1 with
    | c :: r2 =>
      if Ascii.eqb c "."%char then
        match digitpart r2 ip with
        | Some (m, k, r3) => Some (m, - Z.of_nat k, r3)
        | None => Some (ip, 0, r2)
        end
      else Some (ip, 0, r1)
    | [] => Some (ip, 0, [])
    end
  | None =>
    match cs with
    | c :: r2 =>
      if Ascii.eqb c "."%char then
        match digitpart r2 0%N with
        | Some (m, k, r3) => Some (m, - Z.of_nat k, r3)
        | None => None
        end
      else None
    | [] => None
    end
  end.

(** An optional sign: [true] for ["-"]. *)
Definition sign (cs : list ascii) : bool * list ascii :=
  match cs with
  | c :: cs' =>
    if Ascii.eqb c "-"%char then (true, cs')
    else if Ascii.eqb c "+"%char then (false, cs')
    else (false, cs)
  | [] => (false, [])
  end.

(** [exponent ::= ("e" | "E") [sign] digitpart], up to the end of the text. *)
Definition exponent (cs : list ascii) : option Z :=
  match cs with
  | [] => Some 0
  | c :: cs' =>
    if Ascii.eqb c "e"%char || Ascii.eqb c "E"%char then
      let '(neg, r) := sign cs' in
      match digitpart r 0%N with
      | Some (v, _, []) => Some (if neg then - Z.of_N v else Z.of_N v)
      | _ => None
      end
    else None
  end.

(** The blanks that [float] drops at both ends: the space and the
    characters 9 to 13. *)
Definition is_space (c : ascii) : bool :=
  let n := N_of_ascii c in
  ((n =? 32) || ((9 <=? n) && (n <=? 13)))%N.

Definition lower (c : ascii) : ascii :=
  let n := N_of_ascii c in
  if ((65 <=? n) && (n <=? 90))%N then ascii_of_N (n + 32) else c.

Fixpoint lstrip (cs : list ascii) : list ascii :=
  match cs with
  | c :: cs' => if is_space c then lstrip cs' else cs
  | [] => []
  end.

Definition strip (cs : list ascii) : list ascii :=
  rev (lstrip (rev (lstrip cs))).

(** *** The characters of a text *)

(** The payload of a continuation byte of UTF-8. *)
Definition continuation (b : N) : option N :=
  if ((128 <=? b) && (b <? 192))%N then Some (b - 128)%N else None.

(** A code point that is neither a blank nor a digit, for bytes that are
    not UTF-8 (no [str] has such bytes). *)
Definition not_a_character : N := 65533%N.

(** The code points of a text, from its UTF-8 bytes. *)
Fixpoint code_points (bs : list N) : list N :=
  match bs with
  | [] => []
  | b0 :: r0 =>
    if (b0 <? 128)%N then b0 :: code_points r0
    else
      match r0 with
      | b1 :: r1 =>
        match continuation b1 with
        | Some c1 =>
          if ((192 <=? b0) && (b0 <? 224))%N
          then ((b0 - 192) * 64 + c1)%N :: code_points r1
          else
            match r1 with
            | b2 :: r2 =>
              match continuation b2 with
              | Some c2 =>
                if ((224 <=? b0) && (b0 <? 240))%N
                then ((b0 - 224) * 4096 + c1 * 64 + c2)%N :: code_points r2
                else
                  match r2 with
                  | b3 :: r3 =>
                    match continuation b3 with
                    | Some c3 =>
                      if ((240 <=? b0) && (b0 <? 248))%N
                      then ((b0 - 240) * 262144 + c1 * 4096 + c2 * 64 + c3)%N
                             :: code_points r3
                      else not_a_character :: code_points r0
                    | None => not_a_character :: code_points r0
                    end
                  | [] => not_a_character :: code_points r0
                  end
              | None => not_a_character :: code_points r0
              end
            | [] => not_a_character :: code_points r0
            end
        | None => not_a_character :: code_points r0
        end
      | [] => [not_a_character]
      end
  end.

(** The blanks of Unicode beyond ASCII ([str.isspace]). *)
Definition unicode_space (cp : N) : bool :=
  ((cp =? 133) || (cp =? 160) || (cp =? 5760) ||
   ((8192 <=? cp) && (cp <=? 8202)) || (cp =? 8232) || (cp =? 8233) ||
   (cp =? 8239) || (cp =? 8287) || (cp =? 12288))%N.

(** The decimal digits of Unicode beyond ASCII come in runs of ten, from
    the digit zero of a script to its digit nine: the code points of the
    zeros (Unicode 14.0, the table of CPython 3.11). *)
Definition decimal_zeros : list N :=
  [ 1632; 1776; 1984; 2406; 2534; 2662; 2790; 2918; 3046; 3174; 3302; 3430;
    3558; 3664; 3792; 3872; 4160; 4240; 6112; 6160; 6470; 6608; 6784; 6800;
    6992; 7088; 7232; 7248; 42528; 43216; 43264; 43472; 43504; 43600;
    44016; 65296; 66720; 68912; 69734; 69872; 69942; 70096; 70384; 70736;
    70864; 71248; 71360; 71472; 71904; 72016; 72784; 73040; 73120; 92768;
    92864; 93008; 120782; 120792; 120802; 120812; 120822; 123200; 123632;
    125264; 130032 ]%N.

(** The value of a decimal digit that is not ASCII. *)
Definition unicode_decimal (cp : N) : option N :=
  (λ z, (cp - z)%N) <$>
    List.find (λ z, ((z <=? cp) && (cp <=? z + 9))%N) decimal_zeros.

(** What [float] reads for a character: an ASCII character is itself, a
    blank is a space, a decimal digit is its ASCII digit; the text is
    refused for any other character. *)
Definition to_ascii (cp : N) : option ascii :=
  if (cp <? 127)%N then Some (ascii_of_N cp)
  else if unicode_space cp then Some " "%char
  else (λ d, ascii_of_N (48 + d)) <$> unicode_decimal cp.

(** *** Rounding to a double *)

(** [num / den] to the nearest integer, a tie to the even one. *)
Definition round_half_even (num den : Z) : Z :=
  let q := num / den in
  match 2 * (num mod den) ?= den with
  | Lt => q
  | Gt => q + 1
  | Eq => if Z.even q then q else q + 1
  end.

(** [2^k <= p / q] *)
Definition at_least_pow2 (p q k : Z) : bool :=
  if 0 <=? k then q * 2 ^ k <=? p else q <=? p * 2 ^ (- k).

(** A decimal [m * 10^e] with [e <= 0], without the factors 10 that can be
    removed from [m]. *)
Fixpoint shorten (fuel : nat) (m e : Z) : N * Z :=
  match fuel with
  | S fuel' =>
    if (e <? 0) && (m mod 10 =? 0) then shorten fuel' (m / 10) (e + 1)
    else (Z.to_N m, e)
  | O => (Z.to_N m, e)
  end.

(** The double nearest to [m * 10^e]: 53 bits of mantissa, 52 for the
    numbers below [2^-1022], ties to the even mantissa; [None] when the
    rounded number is beyond the largest double. *)
Definition nearest_double (m : N) (e : Z) : option (N * Z) :=
  if (m =? 0)%N then Some (0%N, 0)
  else
    let p := if 0 <=? e then Z.of_N m * 10 ^ e else Z.of_N m in
    let q := if 0 <=? e then 1 else 10 ^ (- e) in
    let k := Z.log2 p - Z.log2 q in
    let b := if at_least_pow2 p q k then k else k - 1 in
    let E := Z.max (b - 52) (-1074) in
    let M := if 0 <=? E then round_half_even p (q * 2 ^ E)
             else round_half_even (p * 2 ^ (- E)) q in
    if (0 <=? E) && (2 ^ 1024 <=? M * 2 ^ E) then None
    else if M =? 0 then Some (0%N, 0)
    else if 0 <=? E then Some (Z.to_N (M * 2 ^ E), 0)
    else Some (shorten (Z.to_nat (- E)) (M * 5 ^ (- E)) E).

(** [float(s)] for a string: blanks and decimal digits of any script are
    read as their ASCII forms, the blanks at both ends are dropped, and the
    rest has to be [[sign] (floatnumber | "inf" | "infinity" | "nan")],
    letters in any case.  The number is rounded to the nearest double, to
    an infinity when it is too large. *)
Definition float_of_string (s : string) : exc PyFloat :=
  match mapM to_ascii (code_points (N_of_ascii <$> list_ascii_of_string s)) with
  | None => Raise ValueError
  | Some cs =>
    let '(neg, r) := sign (strip cs) in
    let word := string_of_list_ascii (map lower r) in
    if bool_decide (word = "inf") || bool_decide (word = "infinity") then Ok (FInf neg)
    else if bool_decide (word = "nan") then Ok FNaN
    else
      match number r with
      | Some (m, e, r') =>
        match exponent r' with
        | Some x =>
          match nearest_double m (e + x) with
          | Some (m', e') => Ok (FDec neg m' e')
          | None => Ok (FInf neg)
          end
        | None => Raise ValueError
        end
      | None => Raise ValueError
      end
  end.

(** [float(z)] for an [int]: the nearest double; integers that round
    beyond the largest double raise [OverflowError]. *)
Definition float_of_int (z : Z) : exc PyFloat :=
  match nearest_double (Z.to_N (Z.abs z)) 0 with
  | Some (m', e') => Ok (FDec (z <? 0) m' e')
  | None => Raise OverflowError
  end.

(** The builtin [float]. *)
Definition py_float (v : PyVal) : exc PyFloat :=
  match v with
  | PyStr s => float_of_string s
  | PyInt z => float_of_int z
  | PyBool b => float_of_int (if b then 1 else 0)
  | PyFlt f => Ok f
  | PyNone | PyList _ | PyDict _ => Raise TypeError
  end.

(** [f > n / 10] for a non-negative number of tenths [n] (the card colours
    compare with 5.5 and 7.5). *)
Definition float_gt_tenths (f : PyFloat) (n : N) : bool :=
  match f with
  | FNaN => false
  | FInf neg => negb neg
  | FDec true _ _ => false
  | FDec false m e =>
    if 0 <=? e + 1 then (Z.of_N n <? Z.of_N m * 10 ^ (e + 1))
    else (Z.of_N n * 10 ^ (- (e + 1)) <? Z.of_N m)
  end.

(** ** The ranker *)

(** [movie in title] for two strings: [movie] occurs in [title] as a
    contiguous run of characters. *)
Fixpoint str_in (movie title : string) : bool :=
  String.prefix movie title ||
  match title with
  | EmptyString => false
  | String _ title' => str_in movie title'
  end.

(** [enumerate(row)], counting from [n]. *)
Fixpoint enumerate_from {A} (n : nat) (row : list A) : list (nat * A) :=
  match row with
  | [] => []
  | x :: row' => (n, x) :: enumerate_from (S n) row'
  end.

Definition enumerate {A} (row : list A) : list (nat * A) := enumerate_from 0 row.

(** [sorted(..., reverse=True, key=lambda x: x[1])].  Python's sort is
    stable, also with [reverse=True]: entries with equal scores keep their
    original order.  A stable sort has one possible result, computed here
    by insertion from the right. *)
Fixpoint insert_desc (x : nat * Qc) (l : list (nat * Qc)) : list (nat * Qc) :=
  match l with
  | [] => [x]
  | y :: l' =>
    if bool_decide (x.2 < y.2)%Qc then y :: insert_desc x l' else x :: y :: l'
  end.

Fixpoint sorted_desc (l : list (nat * Qc)) : list (nat * Qc) :=
  match l with
  | [] => []
  | x :: l' => insert_desc x (sorted_desc l')
  end.

(** The bound of the slice [l[:stop]] for an integer [stop]: a negative
    [stop] counts from the end. *)
Definition slice_stop (len : nat) (stop : Z) : nat :=
  if stop <? 0 then Z.to_nat (Z.max 0 (Z.of_nat len + stop)) else Z.to_nat stop.

(** [l[:stop]]: [None] keeps everything, an [int] (or [bool]) cuts, anything
    else is not a valid slice index. *)
Definition py_slice_to {A} (l : list A) (stop : PyVal) : exc (list A) :=
  match stop with
  | PyNone => Ok l
  | PyInt z => Ok (take (slice_stop (length l) z) l)
  | PyBool b => Ok (take (if b then 1%nat else 0%nat) l)
  | PyFlt _ | PyStr _ | PyList _ | PyDict _ => Raise TypeError
  end.

Section Ranker.
(** The globals loaded at start-up: the [title] column of
    [new_movies_df] in row order, and the [similarity] matrix. Scores are
    only compared, so a score is a rational number.  The titles are texts
    here, as in the data model of the design document; the column with
    cells that are not texts is the subject of [recommend_cells] below. *)
Variable new_movies_df : list string.
Variable similarity : list (list Qc).

(** [new_movies_df[new_movies_df["title"] == movie].index[0]]: the first
    row whose title is [movie]; the empty selection has no element 0. *)
Definition title_index (movie : string) : exc nat :=
  match list_find (λ t, t = movie) new_movies_df with
  | Some (i, _) => Ok i
  | None => Raise IndexError
  end.

(** [similarity[index]] *)
Definition similarity_row (index : nat) : exc (list Qc) :=
  match similarity !! index with
  | Some row => Ok row
  | None => Raise IndexError
  end.

(** [new_movies_df.iloc[i].title], on a column of texts: the text of row
    [i], [IndexError] beyond the last row.  [iloc_cell] below is the same
    access on a column whose cells need not be texts. *)
Definition iloc_title (i : nat) : exc string :=
  match new_movies_df !! i with
  | Some t => Ok t
  | None => Raise IndexError
  end.

(** The [for i in distances[1:]] loop, with its accumulator. *)
Fixpoint recommend_loop (movie : string) (ds : list (nat * Qc))
    (recommendations : list string) : exc (list string) :=
  match ds with
  | [] => Ok recommendations
  | i :: ds' =>
    title ← iloc_title i.1;
    if str_in movie title then recommend_loop movie ds' recommendations
    else recommend_loop movie ds' (recommendations ++ [title])
  end.

Definition recommend (movie : string) (length : PyVal) : exc (list string) :=
  index ← title_index movie;
  row ← similarity_row index;
  let distances := sorted_desc (enumerate row) in
  recommendations ← recommend_loop movie (tail distances) [];
  py_slice_to recommendations length.
End Ranker.

(** *** The ranker on a column with cells that are not texts *)

(** A cell of the [title] column as [read_csv] delivers it: a text, or a
    value that is not a text (the float NaN of a blank cell, a number of a
    numeric column).  Such a value is equal to no text and cannot be
    searched. *)
Inductive Cell :=
| Text (title : string)
| NotText.

#[global] Instance Cell_eq_dec : EqDecision Cell.
Proof. solve_decision. Defined.

(** [movie in title] *)
Definition py_in (movie : string) (title : Cell) : exc bool :=
  match title with
  | Text t => Ok (str_in movie t)
  | NotText => Raise TypeError
  end.

Section RankerOnCells.
Variable title_column : list Cell.
Variable similarity : list (list Qc).

Definition title_index_cells (movie : string) : exc nat :=
  match list_find (λ c, c = Text movie) title_column with
  | Some (i, _) => Ok i
  | None => Raise IndexError
  end.

Definition iloc_cell (i : nat) : exc Cell :=
  match title_column !! i with
  | Some c => Ok c
  | None => Raise IndexError
  end.

Fixpoint recommend_loop_cells (movie : string) (ds : list (nat * Qc))
    (recommendations : list Cell) : exc (list Cell) :=
  match ds with
  | [] => Ok recommendations
  | i :: ds' =>
    title ← iloc_cell i.1;
    found ← py_in movie title;
    if (found : bool) then recommend_loop_cells movie ds' recommendations
    else recommend_loop_cells movie ds' (recommendations ++ [title])
  end.

Definition recommend_cells (movie : string) (length : PyVal) : exc (list Cell) :=
  index ← title_index_cells movie;
  row ← match similarity !! index with
        | Some row => Ok row
        | None => Raise IndexError
        end;
  let distances := sorted_desc (enumerate row) in
  recommendations ← recommend_loop_cells movie (tail distances) [];
  py_slice_to recommendations length.
End RankerOnCells.

(** The cell of row [p] is a text. *)
Definition text_row (title_column : list Cell) (p : nat * Qc) : Prop :=
  ∃ t, title_column !! p.1 = Some (Text t).

(** The example catalogue of the design document. *)
Definition example_titles : list string := ["Alpha"; "Beta"; "Alpha 2"; "Gamma"].
Definition example_similarity : list (list Qc) :=
  [ [Q2Qc 1; Q2Qc (9 # 10); Q2Qc (95 # 100); Q2Qc (2 # 10)];
    [Q2Qc (9 # 10); Q2Qc 1; Q2Qc (5 # 10); Q2Qc (3 # 10)];
    [Q2Qc (95 # 100); Q2Qc (5 # 10); Q2Qc 1; Q2Qc (1 # 10)];
    [Q2Qc (2 # 10); Q2Qc (3 # 10); Q2Qc (1 # 10); Q2Qc 1] ].

(** ** The metadata fetcher *)

(** What the network does with one request. *)
Inductive NetOutcome :=
| GetRaises (e : PyExc)                      (* [session.get] raises *)
| Responds (status : Z) (json : exc PyVal).  (* a response; [response.json()] *)

(** A client session: what a GET of a URL through it leads to. *)
Definition Session := string → NetOutcome.

(** The provider as seen by a batch: the session as it answers request
    number [i]. *)
Definition Provider := nat → Session.

Definition API_KEY : string := "64387cef".

(** The address of the lookup by title; the title is put in as it is. *)
Definition url (name : string) : string :=
  "https://www.omdbapi.com/?apikey=" +:+ API_KEY +:+ "&t=" +:+ name.

(** The lines written to standard output. *)
Inductive Line :=
| UnableToGet (name : string) (cls : PyExc)
| FinalizedAll (n : nat).

(** The body of the [try] block: the status is not inspected, the decoded
    body is returned as it is. *)
Definition request (name : string) (session : Session) : exc PyVal :=
  match session (url name) with
  | GetRaises e => Raise e
  | Responds _ json => resp ← json; Ok resp
  end.

(** [getMovieData]: the [except Exception] clause prints and falls off the
    end of the function, which returns [None]. *)
Definition getMovieData (name : string) (session : Session) : list Line * exc PyVal :=
  match request name session with
  | Ok resp => ([], Ok resp)
  | Raise e => ([UnableToGet name e], Ok PyNone)
  end.

(** ** The orchestrator *)

(** [asyncio.gather]: the awaitables finish in some order [sched]; each
    result is stored at the position of its awaitable, and the first
    exception is raised to the caller.  The answer is [None] when the
    schedule leaves an awaitable unfinished: the join never returns. *)
Fixpoint gather_run {A} (aws : list (list Line * exc A)) (sched : list nat)
    (buf : list (option A)) (out : list Line) : option (list Line * exc (list A)) :=
  match sched with
  | [] => ret ← mapM id buf; Some (out, Ok ret)
  | i :: sched' =>
    match aws !! i with
    | None => None
    | Some (lines, Ok a) => gather_run aws sched' (<[i := Some a]> buf) (out ++ lines)
    | Some (lines, Raise e) => Some (out ++ lines, Raise e)
    end
  end.

Definition gather {A} (aws : list (list Line * exc A)) (sched : list nat)
    : option (list Line * exc (list A)) :=
  gather_run aws sched (replicate (length aws) None) [].

(** A schedule finishes every awaitable exactly once. *)
Definition complete_schedule (n : nat) (sched : list nat) : Prop :=
  sched ≡ₚ seq 0 n.

(** [getAllMovies]: one session for the whole batch, one fetch per title,
    joined by [gather]; the count of results is printed and the results are
    returned.  An exception of the join would leave through the
    [async with] block. *)
Definition getAllMovies (name : list string) (net : Provider) (sched : list nat)
    : option (list Line * exc (list PyVal)) :=
  r ← gather (imap (λ i name, getMovieData name (net i)) name) sched;
  match r with
  | (out, Ok ret) => Some (out ++ [FinalizedAll (length ret)], Ok ret)
  | (out, Raise e) => Some (out, Raise e)
  end.

(** ** Cards *)

(** The link of a card. *)
Inductive Url :=
| ImdbTitle (imdb_id : PyVal)   (* https://www.imdb.com/title/{imdb_id} *)
| ImdbHome.                     (* https://www.imdb.com/ *)

(** One [<a class="card">] element, by the values put into its template. *)
Record Card := {
  card_url : Url;
  card_image : PyVal;
  card_name : PyVal;
  card_color : string;
  card_rating : PyFloat
}.

(** A piece of HTML made of card elements; the empty string has none. *)
Definition Html := list Card.

Definition card (imdb_id name image : PyVal) (rating : PyFloat) : Html :=
  let color := "rgb(220, 38, 38)" in
  let color := if float_gt_tenths rating 55 then "rgb(251, 146, 60)" else color in
  let color := if float_gt_tenths rating 75 then "rgb(34, 197, 94)" else color in
  let url := match imdb_id with PyNone => ImdbHome | _ => ImdbTitle imdb_id end in
  [ {| card_url := url; card_image := image; card_name := name;
       card_color := color; card_rating := rating |} ].

Definition fallback_image : string :=
  "https://images.unsplash.com/photo-1702651250304-2d1d94d1f847?q=80&w=1887&auto=format".

(** [v in empty_values] with [empty_values = ["N/A", None]]. *)
Definition in_empty_values (v : PyVal) : bool :=
  match v with
  | PyNone => true
  | PyStr s => bool_decide (s = "N/A")
  | _ => false
  end.

Definition handle_card_data (data : PyVal) : exc Html :=
  match data with
  | PyNone => Ok []
  | _ =>
    title ← py_get data "Title";
    poster ← py_get data "Poster";
    let image := if in_empty_values poster then PyStr fallback_image else poster in
    r ← py_get data "imdbRating";
    let rating := if in_empty_values r then PyInt 0 else r in
    i ← py_get data "imdbID";
    let imdb_id := if in_empty_values i then PyNone else i in
    rating ← py_float rating;
    Ok (card imdb_id title image rating)
  end.

(** ["".join(map(handle_card_data, result))] *)
Fixpoint join_cards (result : list PyVal) : exc Html :=
  match result with
  | [] => Ok []
  | data :: result' =>
    c ← handle_card_data data;
    cs ← join_cards result';
    Ok (c ++ cs)
  end.

(** [main], from the submitted form to the card container. *)
Definition main (new_movies_df : list string) (similarity : list (list Qc))
    (movie : string) (no_of_recommendations : Z) (net : Provider) (sched : list nat)
    : option (list Line * exc Html) :=
  match recommend new_movies_df similarity movie (PyInt no_of_recommendations) with
  | Raise e => Some ([], Raise e)
  | Ok recommendations =>
    r ← getAllMovies recommendations net sched;
    match r with
    | (out, Ok result) => Some (out, join_cards result)
    | (out, Raise e) => Some (out, Raise e)
    end
  end.

Definition not_found_body : PyVal :=
  PyDict (<["Response" := PyStr "False"]> (<["Error" := PyStr "Movie not found!"]> ∅)).
Definition beta_body : PyVal :=
  PyDict (<["Title" := PyStr "Beta"]> (<["Poster" := PyStr "N/A"]> (<["imdbRating" := PyStr "N/A"]> (<["imdbID" := PyStr "tt01"]> ∅)))).
Definition example_net : Provider := λ i u,
  if bool_decide (u = url "Beta") then Responds 200 (Ok beta_body)
  else if bool_decide (u = url "Gamma") then GetRaises TimeoutError
  else Responds 200 (Ok not_found_body).

(** ** Notions used by the statements *)

(** [movie] occurs in [title]. *)
Definition contains (title movie : string) : Prop :=
  ∃ a b, title = a +:+ movie +:+ b.

(** The catalogue and the matrix have the same dimension. *)
Definition square (new_movies_df : list string) (similarity : list (list Qc)) : Prop :=
  length similarity = length new_movies_df ∧
  Forall (λ row, length row = length new_movies_df) similarity.

(** A sorted entry survives the loop: its title does not contain [movie]. *)
Definition kept (new_movies_df : list string) (movie : string) (p : nat * Qc) : bool :=
  match new_movies_df !! p.1 with
  | Some title => negb (str_in movie title)
  | None => false
  end.

(** The entries behind the first one, in sorted order, that survive. *)
Definition ranked (new_movies_df : list string) (movie : string) (row : list Qc)
    : list (nat * Qc) :=
  filter (λ p, kept new_movies_df movie p) (tail (sorted_desc (enumerate row))).

Definition titles_of (new_movies_df : list string) (ps : list (nat * Qc)) : list string :=
  omap (λ p, new_movies_df !! p.1) ps.

(** The list [recommendations] that the loop of [recommend] has built when
    it reaches the slice, in closed form (the empty list when the title or
    its row is missing).  It is the list of the code, not a notion of what
    ought to be returned. *)
Definition recommendations_of (new_movies_df : list string) (similarity : list (list Qc))
    (movie : string) : list string :=
  match list_find (λ t, t = movie) new_movies_df with
  | Some (index, _) =>
    titles_of new_movies_df (ranked new_movies_df movie (default [] (similarity !! index)))
  | None => []
  end.

(** Higher score first; among equal scores, the earlier catalogue row first. *)
Definition ranks_before (p q : nat * Qc) : Prop :=
  (q.2 < p.2)%Qc ∨ (p.2 = q.2 ∧ (p.1 < q.1)%nat).

(** Row [i] of the catalogue is eligible for [T]: it has a title, which
    does not contain [T]. *)
Definition eligible_row (new_movies_df : list string) (T : string) (i : nat) : Prop :=
  ∃ t, new_movies_df !! i = Some t ∧ ¬ contains t T.

(** The row of [T] ranks first in its own similarity row: every other
    score of that row is lower, or equal and of a later row. *)
Definition own_row_first (new_movies_df : list string) (similarity : list (list Qc))
    (T : string) : Prop :=
  ∃ index row s0,
    list_find (λ t, t = T) new_movies_df = Some (index, T) ∧
    similarity !! index = Some row ∧
    row !! index = Some s0 ∧
    ∀ j s, row !! j = Some s → j ≠ index → ranks_before (index, s0) (j, s).

(** The result a single fetch hands to the join. *)
Definition fetched (name : string) (session : Session) : exc PyVal :=
  (getMovieData name session).2.

Definition absent (data : PyVal) : bool :=
  match data with PyNone => true | _ => false end.

(** A catalogue with a repeated title and tied scores. *)
Definition remake_titles : list string := ["A"; "B"; "B"].
Definition remake_similarity : list (list Qc) :=
  [ [Q2Qc 1; Q2Qc (1 # 2); Q2Qc (1 # 2)];
    [Q2Qc (1 # 2); Q2Qc 1; Q2Qc 1];
    [Q2Qc (1 # 2); Q2Qc 1; Q2Qc 1] ].

(** A catalogue in which an earlier row ties with the row of "A". *)
Definition tie_titles : list string := ["B"; "A"; "C"].
Definition tie_similarity : list (list Qc) :=
  [ [Q2Qc 1; Q2Qc 1; Q2Qc (1 # 2)];
    [Q2Qc 1; Q2Qc 1; Q2Qc (1 # 2)];
    [Q2Qc (1 # 2); Q2Qc (1 # 2); Q2Qc 1] ].

(** The buffer of the join after the awaitables of [sched] have finished
    with the values [vals]. *)
Definition filled {A} (vals : list A) (sched : list nat) (buf : list (option A))
    : list (option A) :=
  foldl (λ b i, <[i := vals !! i]> b) buf sched.

(** The values of the fetches of a batch, in the order of the titles. *)
Definition batch_values (net : Provider) (name : list string) : list PyVal :=
  imap (λ i name, match fetched name (net i) with Ok v => v | Raise _ => PyNone end) name.

(** The lines that the fetches of a batch print, in the order [sched] in
    which they finish: one line for each request that raises. *)
Definition batch_lines (net : Provider) (name : list string) (sched : list nat)
    : list Line :=
  i ← sched;
  match name !! i with
  | Some t =>
    match request t (net i) with
    | Ok _ => []
    | Raise e => [UnableToGet t e]
    end
  | None => []
  end.

(** The number that a float stands for is above [n / 10]: never for a NaN,
    for an infinity when it is the positive one. *)
Definition above_tenths (f : PyFloat) (n : N) : Prop :=
  match f with
  | FNaN => False
  | FInf neg => neg = false
  | FDec neg m e =>
    (inject_Z (Z.of_N n) / 10 <
       (if neg then - inject_Z (Z.of_N m) else inject_Z (Z.of_N m)) * 10 ^ e)%Q
  end.

(** A value that has a [get] method: a mapping. *)
Definition is_dict (data : PyVal) : bool :=
  match data with PyDict _ => true | _ => false end.

(** The exception classes of the network and of the decoding of a body. *)
Definition network_error (e : PyExc) : bool :=
  match e with
  | ClientError | TimeoutError | ContentTypeError | JSONDecodeError => true
  | _ => false
  end.

(** A record with an identifier but neither poster nor rating, and its card. *)
Definition beta_fields : gmap string PyVal :=
  <["Title" := PyStr "Beta"]> (<["Poster" := PyStr "N/A"]>
    (<["imdbRating" := PyStr "N/A"]> (<["imdbID" := PyStr "tt01"]> ∅))).
Definition beta_card : Card :=
  {| card_url := ImdbTitle (PyStr "tt01"); card_image := PyStr fallback_image;
     card_name := PyStr "Beta"; card_color := "rgb(220, 38, 38)";
     card_rating := FDec false 0 0 |}.

(** * Properties *)

(** ** Strings *)

Lemma prefix_spec (s t : string) :
  String.prefix s t = true ↔ ∃ b, t = s +:+ b.
Proof.
  revert t. induction s as [|c s IH]; intros t.
  - destruct t; (split; [intros _; by eexists | done]).
  - destruct t as [|d t]; simpl.
    + split; [discriminate | intros [b Hb]; discriminate].
    + destruct (Ascii.ascii_dec c d) as [->|Hcd].
      * rewrite IH. split; intros [b Hb]; exists b; [by rewrite Hb | by injection Hb].
      * split; [discriminate | intros [b Hb]; injection Hb; congruence].
Qed.

Lemma str_in_empty (movie : string) :
  str_in movie "" = String.prefix movie "".
Proof. unfold str_in. apply orb_false_r. Qed.

Lemma str_in_String (movie : string) (c : ascii) (title : string) :
  str_in movie (String c title) = String.prefix movie (String c title) || str_in movie title.
Proof. done. Qed.

(** [str_in] decides [contains]. *)
Lemma str_in_spec (movie title : string) :
  str_in movie title = true ↔ contains title movie.
Proof.
  unfold contains. induction title as [|c title IH].
  - rewrite str_in_empty, prefix_spec. split.
    + intros [b Hb]. by exists EmptyString, b.
    + intros [[|? a] [b Hb]]; [by exists b | discriminate].
  - rewrite str_in_String, orb_true_iff, prefix_spec, IH. split.
    + intros [[b Hb] | (a & b & Hab)].
      * by exists EmptyString, b.
      * exists (String c a), b. simpl. by rewrite Hab.
    + intros [[|d a] [b Hb]].
      * left. by exists b.
      * right. exists a, b. simpl in Hb. by injection Hb.
Qed.

Lemma append_empty_r (s : string) : s +:+ "" = s.
Proof.
  induction s as [|c s IH]; [done|].
  change (String c (s +:+ "") = String c s). by rewrite IH.
Qed.

Lemma str_in_refl (movie : string) : str_in movie movie = true.
Proof.
  apply str_in_spec. exists EmptyString, EmptyString.
  change (movie = movie +:+ ""). by rewrite append_empty_r.
Qed.

(** ** The stable descending sort *)

Lemma insert_desc_perm (x : nat * Qc) (l : list (nat * Qc)) :
  insert_desc x l ≡ₚ x :: l.
Proof.
  induction l as [|y l IH]; simpl; [done|].
  case_bool_decide; [|done].
  rewrite IH. apply Permutation_swap.
Qed.

Lemma sorted_desc_perm (l : list (nat * Qc)) : sorted_desc l ≡ₚ l.
Proof.
  induction l as [|x l IH]; simpl; [done|].
  by rewrite insert_desc_perm, IH.
Qed.

Lemma ranks_before_trans (p q r : nat * Qc) :
  ranks_before p q → ranks_before q r → ranks_before p r.
Proof.
  unfold ranks_before.
  intros [Hpq | [Hpq Hi]] [Hqr | [Hqr Hj]].
  - left. by eapply Qclt_trans.
  - left. by rewrite <- Hqr.
  - left. by rewrite Hpq.
  - right. split; [congruence | lia].
Qed.

Lemma ranks_before_irrefl (p : nat * Qc) : ¬ ranks_before p p.
Proof.
  intros [H | [_ H]]; [|lia].
  by apply Qclt_not_eq in H.
Qed.

(** Inserting an entry of a smaller row number keeps the order: it passes
    the strictly higher scores and stops in front of its ties. *)
Lemma insert_desc_sorted (x : nat * Qc) (l : list (nat * Qc)) :
  Forall (λ y, (x.1 < y.1)%nat) l →
  StronglySorted ranks_before l →
  StronglySorted ranks_before (insert_desc x l).
Proof.
  induction l as [|y l IH]; simpl; intros Hlt Hs.
  - by repeat constructor.
  - apply Forall_cons in Hlt as [Hxy Hlt].
    apply StronglySorted_inv in Hs as [Hs Hy].
    case_bool_decide as Hc.
    + constructor; [by apply IH|].
      rewrite insert_desc_perm. constructor; [by left | done].
    + assert (ranks_before x y) as Hb.
      { apply Qcnot_lt_le, Qcle_lt_or_eq in Hc as [Hc | Hc]; [by left | by right]. }
      constructor; [by constructor|].
      constructor; [done|].
      eapply Forall_impl; [exact Hy|].
      intros z Hz. by eapply ranks_before_trans.
Qed.

Lemma enumerate_from_spec {A} (n : nat) (row : list A) (p : nat * A) :
  p ∈ enumerate_from n row ↔ ∃ i, p.1 = (n + i)%nat ∧ row !! i = Some p.2.
Proof.
  revert n. induction row as [|x row IH]; intros n; simpl.
  - split; [by intros ?%elem_of_nil | by intros (i & _ & ?)].
  - rewrite elem_of_cons, IH. split.
    + intros [-> | (i & Hi & Hr)].
      * exists 0%nat. split; [simpl; lia | done].
      * exists (S i). split; [lia | done].
    + intros ([|i] & Hi & Hr); simpl in Hr.
      * left. destruct p as [j y]; simpl in *. f_equal; [lia | congruence].
      * right. exists i. split; [lia | done].
Qed.

Lemma sorted_enumerate_from (n : nat) (row : list Qc) :
  StronglySorted ranks_before (sorted_desc (enumerate_from n row)).
Proof.
  revert n. induction row as [|x row IH]; intros n; simpl; [constructor|].
  apply insert_desc_sorted; [|apply IH].
  rewrite sorted_desc_perm. apply Forall_forall.
  intros p (i & Hi & _)%enumerate_from_spec. simpl. lia.
Qed.

Lemma StronglySorted_sublist {A} (R : relation A) (l k : list A) :
  l `sublist_of` k → StronglySorted R k → StronglySorted R l.
Proof.
  induction 1 as [|x l k Hsub IH|x l k Hsub IH]; intros Hs; [done|..];
    apply StronglySorted_inv in Hs as [Hs Hx].
  - constructor; [by apply IH|].
    apply Forall_forall. intros y Hy.
    rewrite Forall_forall in Hx. by eapply Hx, elem_of_sublist.
  - by apply IH.
Qed.

(** ** The ranker *)

Section RankerFacts.
Context (new_movies_df : list string) (similarity : list (list Qc)).

Lemma recommend_loop_spec (movie : string) (ds : list (nat * Qc)) (acc : list string) :
  Forall (λ p, (p.1 < length new_movies_df)%nat) ds →
  recommend_loop new_movies_df movie ds acc =
    Ok (acc ++ titles_of new_movies_df (filter (λ p, kept new_movies_df movie p) ds)).
Proof.
  revert acc. induction ds as [|p ds IH]; intros acc Hin; simpl.
  - by rewrite app_nil_r.
  - apply Forall_cons in Hin as [Hp Hin].
    apply lookup_lt_is_Some in Hp as [title Ht].
    unfold iloc_title. rewrite Ht. simpl.
    assert (kept new_movies_df movie p = negb (str_in movie title)) as Hk.
    { unfold kept. by rewrite Ht. }
    destruct (str_in movie title) eqn:Hsub; simpl in *.
    + rewrite filter_cons_False by (rewrite Hk; simpl; auto). by apply IH.
    + rewrite filter_cons_True by (rewrite Hk; simpl; auto).
      rewrite IH by done. unfold titles_of. simpl. rewrite Ht.
      by rewrite <- app_assoc.
Qed.

Lemma title_index_Some (movie : string) :
  movie ∈ new_movies_df →
  ∃ index, list_find (λ t, t = movie) new_movies_df = Some (index, movie) ∧
           (index < length new_movies_df)%nat.
Proof.
  intros Hin.
  destruct (list_find (λ t, t = movie) new_movies_df) as [[index t]|] eqn:Hf.
  - pose proof Hf as (Hl & -> & _)%list_find_Some.
    exists index. split; [done|]. by eapply lookup_lt_Some.
  - apply list_find_None in Hf. rewrite Forall_forall in Hf. by destruct (Hf movie).
Qed.

Lemma sorted_indices_in_range (row : list Qc) :
  length row = length new_movies_df →
  Forall (λ p, (p.1 < length new_movies_df)%nat) (tail (sorted_desc (enumerate row))).
Proof.
  intros Hlen. apply Forall_forall. intros p Hp.
  assert (p ∈ enumerate row) as (i & Hi & Hr)%enumerate_from_spec.
  { rewrite <- (sorted_desc_perm (enumerate row)).
    eapply elem_of_sublist; [exact Hp | apply (sublist_drop _ 1)]. }
  apply lookup_lt_Some in Hr. lia.
Qed.

(** On a catalogue title and a square matrix, [recommend] is the slice of
    the list that its loop builds. *)
Lemma recommend_spec (movie : string) (length : PyVal) :
  movie ∈ new_movies_df →
  square new_movies_df similarity →
  recommend new_movies_df similarity movie length =
    py_slice_to (recommendations_of new_movies_df similarity movie) length.
Proof.
  intros (index & Hf & Hlt)%title_index_Some [Hn Hrows].
  unfold recommend, recommendations_of, title_index. rewrite Hf. simpl.
  rewrite <- Hn in Hlt. apply lookup_lt_is_Some in Hlt as [row Hrow].
  unfold similarity_row. rewrite Hrow. simpl.
  rewrite recommend_loop_spec.
  - done.
  - apply sorted_indices_in_range.
    rewrite Forall_forall in Hrows. by eapply Hrows, list_elem_of_lookup_2.
Qed.

Lemma ranked_sorted (movie : string) (row : list Qc) :
  StronglySorted ranks_before (ranked new_movies_df movie row).
Proof.
  eapply StronglySorted_sublist; [|apply (sorted_enumerate_from 0 row)].
  etrans; [apply sublist_filter | apply (sublist_drop _ 1)].
Qed.

Lemma recommendations_of_not_containing (movie : string) :
  Forall (λ t, ¬ contains t movie) (recommendations_of new_movies_df similarity movie).
Proof.
  unfold recommendations_of.
  destruct (list_find _ _) as [[index ?]|]; [|constructor].
  apply Forall_forall. intros t (p & Hp & Ht)%list_elem_of_omap.
  apply list_elem_of_filter in Hp as [Hk _].
  unfold kept in Hk. rewrite Ht in Hk.
  rewrite <- str_in_spec. by destruct (str_in movie t).
Qed.
Lemma recommendations_of_in_catalogue (movie : string) :
  Forall (λ t, t ∈ new_movies_df) (recommendations_of new_movies_df similarity movie).
Proof.
  unfold recommendations_of.
  destruct (list_find _ _) as [[index ?]|]; [|constructor].
  apply Forall_forall. intros t (p & _ & Ht)%list_elem_of_omap.
  by eapply list_elem_of_lookup_2.
Qed.
End RankerFacts.

Lemma titles_of_take (new_movies_df : list string) (ps : list (nat * Qc)) (n : nat) :
  Forall (λ p, is_Some (new_movies_df !! p.1)) ps →
  titles_of new_movies_df (take n ps) = take n (titles_of new_movies_df ps).
Proof.
  revert n. induction ps as [|p ps IH]; intros n Hps; [by destruct n|].
  apply Forall_cons in Hps as [[t Ht] Hps].
  destruct n as [|n]; [done|].
  unfold titles_of in *. simpl. rewrite Ht. simpl. f_equal. by apply IH.
Qed.

Lemma titles_of_Forall2 (new_movies_df : list string) (ps : list (nat * Qc)) :
  Forall (λ p, is_Some (new_movies_df !! p.1)) ps →
  Forall2 (λ t p, new_movies_df !! p.1 = Some t) (titles_of new_movies_df ps) ps.
Proof.
  induction 1 as [|p ps [t Ht] _ IH]; [constructor|].
  unfold titles_of in *. simpl. rewrite Ht. by constructor.
Qed.

Lemma titles_of_NoDup (new_movies_df : list string) (ps : list (nat * Qc)) :
  NoDup new_movies_df → NoDup ps.*1 → NoDup (titles_of new_movies_df ps).
Proof.
  intros Hdf. induction ps as [|p ps IH]; intros Hps; [constructor|].
  apply NoDup_cons in Hps as [Hp Hps].
  unfold titles_of in *. simpl.
  destruct (new_movies_df !! p.1) as [t|] eqn:Ht; [|by apply IH].
  constructor; [|by apply IH].
  intros (q & Hq & Hqt)%list_elem_of_omap.
  apply Hp. apply list_elem_of_fmap. exists q. split; [|done].
  exact (NoDup_lookup _ _ _ _ Hdf Ht Hqt).
Qed.

Lemma ranked_kept (new_movies_df : list string) (movie : string) (row : list Qc) :
  Forall (λ p, is_Some (new_movies_df !! p.1)) (ranked new_movies_df movie row).
Proof.
  apply Forall_forall. intros p [Hk _]%list_elem_of_filter.
  unfold kept in Hk. by destruct (new_movies_df !! p.1).
Qed.

Lemma ranked_scores (new_movies_df : list string) (movie : string) (row : list Qc) :
  Forall (λ p, row !! p.1 = Some p.2) (ranked new_movies_df movie row).
Proof.
  apply Forall_forall. intros p [_ Hp]%list_elem_of_filter.
  assert (p ∈ enumerate row) as (i & Hi & Hr)%enumerate_from_spec.
  { rewrite <- (sorted_desc_perm (enumerate row)).
    eapply elem_of_sublist; [exact Hp | apply (sublist_drop _ 1)]. }
  simpl in Hi. by rewrite Hi.
Qed.

Lemma enumerate_from_fst {A} (n : nat) (row : list A) :
  (enumerate_from n row).*1 = seq n (length row).
Proof.
  revert n. induction row as [|x row IH]; intros n; simpl; [done|].
  by rewrite IH.
Qed.

Lemma ranked_NoDup (new_movies_df : list string) (movie : string) (row : list Qc) :
  NoDup (ranked new_movies_df movie row).*1.
Proof.
  apply (sublist_NoDup _ (sorted_desc (enumerate row)).*1).
  - rewrite (sorted_desc_perm (enumerate row)).
    unfold enumerate. rewrite enumerate_from_fst. apply NoDup_seq.
  - apply fmap_sublist. etrans; [apply sublist_filter | apply (sublist_drop _ 1)].
Qed.

(** When the first sorted entry is a row whose title contains [movie] (the
    row of [movie] itself, as a rule), skipping it loses nothing: the loop
    keeps all the catalogue titles that do not contain [movie]. *)
Lemma ranked_all (new_movies_df : list string) (movie : string) (row : list Qc)
    (p : nat * Qc) (t : string) :
  head (sorted_desc (enumerate row)) = Some p →
  new_movies_df !! p.1 = Some t →
  contains t movie →
  ranked new_movies_df movie row =
    filter (λ q, kept new_movies_df movie q) (sorted_desc (enumerate row)).
Proof.
  intros Hhead Ht Hc. unfold ranked.
  destruct (sorted_desc (enumerate row)) as [|q l]; [done|].
  simpl in Hhead. injection Hhead as ->. simpl.
  rewrite filter_cons_False; [done|].
  unfold kept. rewrite Ht. apply str_in_spec in Hc. rewrite Hc. simpl. auto.
Qed.

Lemma recommendations_of_complete (new_movies_df : list string) (similarity : list (list Qc))
    (T : string) (index : nat) (row : list Qc) (p : nat * Qc) (t : string) :
  list_find (λ t, t = T) new_movies_df = Some (index, T) →
  similarity !! index = Some row →
  length row = length new_movies_df →
  head (sorted_desc (enumerate row)) = Some p →
  new_movies_df !! p.1 = Some t →
  contains t T →
  ∀ t', t' ∈ recommendations_of new_movies_df similarity T ↔ t' ∈ new_movies_df ∧ ¬ contains t' T.
Proof.
  intros Hf Hrow Hlen Hhead Ht Hc t'.
  unfold recommendations_of. rewrite Hf, Hrow. simpl.
  rewrite (ranked_all _ _ _ _ _ Hhead Ht Hc).
  unfold titles_of. rewrite list_elem_of_omap. split.
  - intros (q & [Hk _]%list_elem_of_filter & Hq). split.
    + by eapply list_elem_of_lookup_2.
    + unfold kept in Hk. rewrite Hq in Hk.
      rewrite <- str_in_spec. by destruct (str_in T t').
  - intros [(j & Hj)%list_elem_of_lookup_1 Hn].
    assert (is_Some (row !! j)) as [sc Hsc].
    { apply lookup_lt_is_Some. rewrite Hlen. by eapply lookup_lt_Some. }
    exists (j, sc). split; [|done].
    apply list_elem_of_filter. split.
    + unfold kept. simpl. rewrite Hj.
      rewrite <- str_in_spec in Hn. by destruct (str_in T t').
    + rewrite sorted_desc_perm. apply enumerate_from_spec. by exists j.
Qed.

(** The example of the design document. *)
Example recommend_Alpha_2 :
  recommend example_titles example_similarity "Alpha" (PyInt 2) = Ok ["Beta"; "Gamma"].
Proof. vm_compute. reflexivity. Qed.

(** When another row ties with the row of [movie] and comes earlier, it is
    that row which [distances[1:]] skips. *)
Example tie_in_front_is_skipped :
  recommend ["B"; "A"; "C"]
    [ [Q2Qc 1; Q2Qc 1; Q2Qc (1 # 2)];
      [Q2Qc 1; Q2Qc 1; Q2Qc (1 # 2)];
      [Q2Qc (1 # 2); Q2Qc (1 # 2); Q2Qc 1] ] "A" (PyInt 2) = Ok ["C"].
Proof. vm_compute. reflexivity. Qed.

Lemma slice_stop_nonneg (len : nat) (stop : Z) :
  0 ≤ stop → slice_stop len stop = Z.to_nat stop.
Proof. intros H. unfold slice_stop. by rewrite (proj2 (Z.ltb_ge _ _) H). Qed.

Lemma slice_stop_neg (len : nat) (m : Z) :
  0 < m → slice_stop len (- m) = (len - Z.to_nat m)%nat.
Proof.
  intros H. unfold slice_stop.
  rewrite (proj2 (Z.ltb_lt (- m) 0)) by lia. lia.
Qed.

(** C3: a title that is not in the catalogue makes [recommend] fail: the
    empty selection has no first index, the lookup raises (Python's
    [IndexError], the not-found error of the ranker) whatever the count is,
    and no list is produced. *)
Theorem recommend_missing_title (new_movies_df : list string)
    (similarity : list (list Qc)) (movie : string) (length : PyVal) :
  movie ∉ new_movies_df →
  recommend new_movies_df similarity movie length = Raise IndexError ∧
  ∀ l, recommend new_movies_df similarity movie length ≠ Ok l.
Proof.
  intros Hnot.
  assert (list_find (λ t, t = movie) new_movies_df = None) as Hf.
  { apply list_find_None, Forall_forall. by intros t Ht ->. }
  unfold recommend, title_index. rewrite Hf. by split.
Qed.

Lemma recommend_missing_title_witness :
  recommend example_titles example_similarity "Delta" (PyInt 2) = Raise IndexError ∧
  ∀ l, recommend example_titles example_similarity "Delta" (PyInt 2) ≠ Ok l.
Proof.
  apply recommend_missing_title.
  apply (bool_decide_unpack _). vm_compute. reflexivity.
Defined.

(** The row of [movie] is the first sorted entry when it ranks before
    every other entry of its similarity row. *)
Lemma own_row_is_head (row : list Qc) (index : nat) (s0 : Qc) :
  row !! index = Some s0 →
  (∀ j s, row !! j = Some s → j ≠ index → ranks_before (index, s0) (j, s)) →
  head (sorted_desc (enumerate row)) = Some (index, s0).
Proof.
  intros Hs0 Hfirst.
  assert ((index, s0) ∈ sorted_desc (enumerate row)) as Hin.
  { rewrite sorted_desc_perm. apply enumerate_from_spec. by exists index. }
  pose proof (sorted_enumerate_from 0 row) as Hsorted.
  pose proof (sorted_desc_perm (enumerate row)) as Hperm.
  fold (enumerate row) in Hsorted.
  destruct (sorted_desc (enumerate row)) as [|p ds]; [by apply elem_of_nil in Hin|].
  simpl. f_equal.
  apply elem_of_cons in Hin as [Heq|Hin]; [done|]. exfalso.
  apply StronglySorted_inv in Hsorted as [_ Hp].
  rewrite Forall_forall in Hp. specialize (Hp _ Hin).
  assert (p ∈ enumerate row) as (j & Hj & Hr)%enumerate_from_spec.
  { rewrite <- Hperm. by left. }
  destruct p as [j' s]. simpl in *. subst j'.
  destruct (decide (j = index)) as [->|Hne].
  - assert (s = s0) as -> by congruence. by apply ranks_before_irrefl in Hp.
  - apply (ranks_before_irrefl (index, s0)).
    eapply ranks_before_trans; [by apply Hfirst | done].
Qed.

Lemma ranked_rows_eligible (new_movies_df : list string) (T : string) (row : list Qc) :
  Forall (eligible_row new_movies_df T) (ranked new_movies_df T row).*1.
Proof.
  apply Forall_fmap, Forall_forall. intros p [Hk _]%list_elem_of_filter.
  unfold kept in Hk. simpl. unfold eligible_row.
  destruct (new_movies_df !! p.1) as [t|]; [|done].
  exists t. split; [done|]. rewrite <- str_in_spec. by destruct (str_in T t).
Qed.

Lemma eligible_rows_ranked (new_movies_df : list string) (T : string) (row : list Qc)
    (p : nat * Qc) (i : nat) :
  length row = length new_movies_df →
  head (sorted_desc (enumerate row)) = Some p →
  new_movies_df !! p.1 = Some T →
  eligible_row new_movies_df T i →
  i ∈ (ranked new_movies_df T row).*1.
Proof.
  intros Hlen Hhead Hp (t & Ht & Hn).
  rewrite (ranked_all _ _ _ _ _ Hhead Hp)
    by (apply str_in_spec, str_in_refl).
  assert (is_Some (row !! i)) as [sc Hsc].
  { apply lookup_lt_is_Some. rewrite Hlen. by eapply lookup_lt_Some. }
  apply list_elem_of_fmap. exists (i, sc). split; [done|].
  apply list_elem_of_filter. split.
  - unfold kept. simpl. rewrite Ht.
    rewrite <- str_in_spec in Hn. by destruct (str_in T t).
  - rewrite sorted_desc_perm. apply enumerate_from_spec. by exists i.
Qed.

(** C4, as the code has it: for a catalogue title [T] and a count [K > 0],
    [recommend] returns at most [K] titles, none equal to [T] and none
    containing [T], each the title of a different eligible row of the
    catalogue (no padding, no row twice).  When the row of [T] ranks first
    in its own similarity row, the number of titles is the smaller of [K]
    and the number of eligible rows, and when [K] is at least that number
    the titles are those of all the eligible rows. *)
Theorem recommend_at_most_K (new_movies_df : list string)
    (similarity : list (list Qc)) (T : string) (K : Z) :
  T ∈ new_movies_df →
  square new_movies_df similarity →
  0 < K →
  ∃ l rows,
    recommend new_movies_df similarity T (PyInt K) = Ok l ∧
    Z.of_nat (length l) ≤ K ∧
    Forall (λ t, t ≠ T ∧ ¬ contains t T) l ∧
    Forall2 (λ t i, new_movies_df !! i = Some t) l rows ∧
    NoDup rows ∧
    Forall (eligible_row new_movies_df T) rows ∧
    (own_row_first new_movies_df similarity T →
     ∀ eligible_rows,
       NoDup eligible_rows →
       (∀ i, i ∈ eligible_rows ↔ eligible_row new_movies_df T i) →
       length l = (Z.to_nat K `min` length eligible_rows)%nat ∧
       (Z.of_nat (length eligible_rows) ≤ K → rows ≡ₚ eligible_rows)).
Proof.
  intros HT Hsq HK.
  pose proof HT as (index & Hf & Hlt)%title_index_Some.
  pose proof Hf as (Hidx & _ & _)%list_find_Some.
  pose proof Hsq as [Hn Hrows].
  assert (is_Some (similarity !! index)) as [row Hrow].
  { apply lookup_lt_is_Some. by rewrite Hn. }
  assert (length row = length new_movies_df) as Hlen.
  { rewrite Forall_forall in Hrows. by eapply Hrows, list_elem_of_lookup_2. }
  set (R := ranked new_movies_df T row).
  assert (recommendations_of new_movies_df similarity T = titles_of new_movies_df R) as HL.
  { unfold recommendations_of. by rewrite Hf, Hrow. }
  assert (length (titles_of new_movies_df R) = length R) as HlenR.
  { eapply Forall2_length, titles_of_Forall2, ranked_kept. }
  exists (titles_of new_movies_df (take (Z.to_nat K) R)), (take (Z.to_nat K) R).*1.
  split; [|split; [|split; [|split; [|split; [|split]]]]].
  - rewrite recommend_spec by done. simpl.
    rewrite slice_stop_nonneg by lia.
    by rewrite HL, titles_of_take by apply ranked_kept.
  - rewrite titles_of_take by apply ranked_kept. rewrite length_take. lia.
  - rewrite titles_of_take by apply ranked_kept. apply Forall_take.
    rewrite <- HL.
    eapply Forall_impl; [apply recommendations_of_not_containing|].
    intros t Hc. split; [|done].
    intros ->. apply Hc, str_in_spec, str_in_refl.
  - apply Forall2_fmap_r, titles_of_Forall2, Forall_take, ranked_kept.
  - eapply sublist_NoDup; [apply ranked_NoDup|].
    apply fmap_sublist, sublist_take.
  - rewrite fmap_take. apply Forall_take, ranked_rows_eligible.
  - intros (index' & row' & s0 & Hf' & Hrow' & Hs0 & Hfirst) eligible_rows Hnd Hel.
    assert (index' = index) as -> by congruence.
    assert (row' = row) as -> by congruence.
    pose proof (own_row_is_head row index s0 Hs0 Hfirst) as Hhead.
    assert (R.*1 ≡ₚ eligible_rows) as Hperm.
    { apply NoDup_Permutation; [apply ranked_NoDup | done |].
      intros i. rewrite Hel. split.
      - intros Hi. pose proof (ranked_rows_eligible new_movies_df T row) as Hall.
        rewrite Forall_forall in Hall. by apply Hall.
      - by apply (eligible_rows_ranked _ _ _ (index, s0)). }
    assert (length R = length eligible_rows) as HlenE.
    { by rewrite <- Hperm, length_fmap. }
    split.
    + rewrite titles_of_take by apply ranked_kept.
      rewrite length_take, HlenR. lia.
    + intros Hle. rewrite take_ge by lia. done.
Qed.

Lemma recommend_at_most_K_witness :
  ∃ l rows,
    recommend example_titles example_similarity "Alpha" (PyInt 3) = Ok l ∧
    Z.of_nat (length l) ≤ 3 ∧
    Forall (λ t, t ≠ "Alpha" ∧ ¬ contains t "Alpha") l ∧
    Forall2 (λ t i, example_titles !! i = Some t) l rows ∧
    NoDup rows ∧
    Forall (eligible_row example_titles "Alpha") rows ∧
    (own_row_first example_titles example_similarity "Alpha" →
     ∀ eligible_rows,
       NoDup eligible_rows →
       (∀ i, i ∈ eligible_rows ↔ eligible_row example_titles "Alpha" i) →
       length l = (Z.to_nat 3 `min` length eligible_rows)%nat ∧
       (Z.of_nat (length eligible_rows) ≤ 3 → rows ≡ₚ eligible_rows)).
Proof.
  apply recommend_at_most_K.
  - apply (bool_decide_unpack _). vm_compute. reflexivity.
  - split; [reflexivity | repeat constructor].
  - lia.
Defined.

(** C4 fails as stated: the row of "B" ties with the row of "A" and comes
    first, so it is the one that is skipped; "B" is eligible and the count
    exceeds the number of rows, yet "B" is not returned. *)
Lemma recommend_drops_tied_front_row :
  "A" ∈ tie_titles ∧
  square tie_titles tie_similarity ∧
  Z.of_nat (length tie_titles) < 5 ∧
  recommend tie_titles tie_similarity "A" (PyInt 5) = Ok ["C"] ∧
  tie_titles !! 0%nat = Some "B" ∧
  eligible_row tie_titles "A" 0 ∧
  "B" ∉ ["C"].
Proof.
  split; [apply (bool_decide_unpack _); vm_compute; reflexivity|].
  split; [split; [reflexivity | repeat constructor]|].
  split; [simpl; lia|].
  split; [vm_compute; reflexivity|].
  split; [reflexivity|].
  split.
  - exists "B". split; [reflexivity|].
    intros H%str_in_spec. vm_compute in H. discriminate.
  - apply (bool_decide_unpack _). vm_compute. reflexivity.
Qed.

(** C10: for a catalogue title and counts [0 <= k <= k'], the list for [k]
    is an initial segment of the list for [k']. *)
Theorem recommend_prefix (new_movies_df : list string)
    (similarity : list (list Qc)) (T : string) (k k' : Z) :
  T ∈ new_movies_df →
  square new_movies_df similarity →
  0 ≤ k ≤ k' →
  ∃ l l', recommend new_movies_df similarity T (PyInt k) = Ok l ∧
          recommend new_movies_df similarity T (PyInt k') = Ok l' ∧
          l `prefix_of` l'.
Proof.
  intros HT Hsq Hk.
  exists (take (Z.to_nat k) (recommendations_of new_movies_df similarity T)),
         (take (Z.to_nat k') (recommendations_of new_movies_df similarity T)).
  rewrite !recommend_spec by done. simpl.
  rewrite !slice_stop_nonneg by lia.
  split; [done|]. split; [done|].
  replace (Z.to_nat k) with (Z.to_nat k `min` Z.to_nat k')%nat by lia.
  rewrite <- take_take. apply prefix_take.
Qed.

Lemma recommend_prefix_witness :
  ∃ l l', recommend example_titles example_similarity "Beta" (PyInt 1) = Ok l ∧
          recommend example_titles example_similarity "Beta" (PyInt 3) = Ok l' ∧
          l `prefix_of` l'.
Proof.
  apply recommend_prefix.
  - apply (bool_decide_unpack _). vm_compute. reflexivity.
  - split; [reflexivity | repeat constructor].
  - lia.
Defined.

(** C5, as the code has it: for a catalogue title [T] and a count [K > 0],
    the returned titles are the titles of catalogue rows taken in ranking
    order: higher score first, and among equal scores the earlier row
    first.  The scores are descending but ties are allowed; no row is
    returned twice, and the titles are pairwise different when the
    catalogue titles are. *)
Theorem recommend_descending (new_movies_df : list string)
    (similarity : list (list Qc)) (T : string) (K : Z) :
  T ∈ new_movies_df →
  square new_movies_df similarity →
  0 < K →
  ∃ index row ps l,
    new_movies_df !! index = Some T ∧
    similarity !! index = Some row ∧
    recommend new_movies_df similarity T (PyInt K) = Ok l ∧
    Forall2 (λ t p, new_movies_df !! p.1 = Some t ∧ row !! p.1 = Some p.2) l ps ∧
    StronglySorted ranks_before ps ∧
    NoDup ps.*1 ∧
    (NoDup new_movies_df → NoDup l).
Proof.
  intros HT Hsq HK.
  pose proof HT as (index & Hf & Hlt)%title_index_Some.
  pose proof Hf as (Hidx & _ & _)%list_find_Some.
  destruct Hsq as [Hn Hrows].
  assert (is_Some (similarity !! index)) as [row Hrow].
  { apply lookup_lt_is_Some. by rewrite Hn. }
  set (ps := take (Z.to_nat K) (ranked new_movies_df T row)).
  assert (ps `sublist_of` ranked new_movies_df T row) as Hsub by apply sublist_take.
  assert (Forall (λ p, is_Some (new_movies_df !! p.1)) ps) as Hps.
  { apply Forall_take, ranked_kept. }
  exists index, row, ps, (titles_of new_movies_df ps).
  split; [done|]. split; [done|]. split; [|split; [|split; [|split]]].
  - rewrite recommend_spec by done. simpl.
    rewrite slice_stop_nonneg by lia.
    unfold recommendations_of. rewrite Hf, Hrow. simpl.
    unfold ps. by rewrite titles_of_take by apply ranked_kept.
  - apply titles_of_Forall2 in Hps.
    assert (Forall (λ p, row !! p.1 = Some p.2) ps) as Hsc.
    { apply Forall_take, ranked_scores. }
    clear -Hps Hsc. induction Hps as [|t p l ps Ht _ IH]; [constructor|].
    apply Forall_cons in Hsc as [Hp Hsc]. constructor; [done | by apply IH].
  - eapply StronglySorted_sublist; [exact Hsub | apply ranked_sorted].
  - eapply sublist_NoDup; [apply ranked_NoDup | by apply fmap_sublist].
  - intros Hdf. apply titles_of_NoDup; [done|].
    eapply sublist_NoDup; [apply ranked_NoDup | by apply fmap_sublist].
Qed.

Lemma recommend_descending_witness :
  ∃ index row ps l,
    example_titles !! index = Some "Alpha" ∧
    example_similarity !! index = Some row ∧
    recommend example_titles example_similarity "Alpha" (PyInt 2) = Ok l ∧
    Forall2 (λ t p, example_titles !! p.1 = Some t ∧ row !! p.1 = Some p.2) l ps ∧
    StronglySorted ranks_before ps ∧
    NoDup ps.*1 ∧
    (NoDup example_titles → NoDup l).
Proof.
  apply recommend_descending.
  - apply (bool_decide_unpack _). vm_compute. reflexivity.
  - split; [reflexivity | repeat constructor].
  - lia.
Defined.

(** C5 fails as stated: with a repeated catalogue title and tied scores,
    the same title is returned twice, for rows whose scores are equal. *)
Lemma recommend_repeats_tied_titles :
  "A" ∈ remake_titles ∧
  square remake_titles remake_similarity ∧
  recommend remake_titles remake_similarity "A" (PyInt 2) = Ok ["B"; "B"] ∧
  ¬ NoDup ["B"; "B"] ∧
  ∃ row, remake_similarity !! 0%nat = Some row ∧
         (ranked remake_titles "A" row).*1 = [1; 2]%nat ∧
         row !! 1%nat = row !! 2%nat.
Proof.
  split; [by constructor|].
  split; [split; [reflexivity | repeat constructor]|].
  split; [vm_compute; reflexivity|].
  split.
  - intros [Hin _]%NoDup_cons. apply Hin. by constructor.
  - eexists. split; [reflexivity|]. split; [vm_compute; reflexivity | reflexivity].
Qed.

(** C6, as the code has it: [recommend] does not check the count.  For a
    catalogue title, the count 0 gives the empty list, a negative count
    [-m] gives the candidates without their last [m], and a count that is
    not an integer is only refused by the final slice, with [TypeError],
    after the ranking. *)
Theorem recommend_count_unchecked (new_movies_df : list string)
    (similarity : list (list Qc)) (T : string) :
  T ∈ new_movies_df →
  square new_movies_df similarity →
  recommend new_movies_df similarity T (PyInt 0) = Ok [] ∧
  (∀ m, 0 < m →
     recommend new_movies_df similarity T (PyInt (- m)) =
       Ok (take (length (recommendations_of new_movies_df similarity T) - Z.to_nat m)
                (recommendations_of new_movies_df similarity T))) ∧
  (∀ f, recommend new_movies_df similarity T (PyFlt f) = Raise TypeError).
Proof.
  intros HT Hsq. split; [|split].
  - by rewrite recommend_spec.
  - intros m Hm. rewrite recommend_spec by done. simpl.
    by rewrite slice_stop_neg.
  - intros f. by rewrite recommend_spec.
Qed.

Lemma recommend_count_unchecked_witness :
  recommend example_titles example_similarity "Beta" (PyInt 0) = Ok [] ∧
  (∀ m, 0 < m →
     recommend example_titles example_similarity "Beta" (PyInt (- m)) =
       Ok (take (length (recommendations_of example_titles example_similarity "Beta") - Z.to_nat m)
                (recommendations_of example_titles example_similarity "Beta"))) ∧
  (∀ f, recommend example_titles example_similarity "Beta" (PyFlt f) = Raise TypeError).
Proof.
  apply recommend_count_unchecked.
  - apply (bool_decide_unpack _). vm_compute. reflexivity.
  - split; [reflexivity | repeat constructor].
Defined.

(** C6 fails as stated: the counts 0 and -1 are not rejected, a list is
    returned for each. *)
Lemma recommend_accepts_nonpositive_count :
  "Beta" ∈ example_titles ∧
  recommend example_titles example_similarity "Beta" (PyInt 0) = Ok [] ∧
  recommend example_titles example_similarity "Beta" (PyInt (-1)) = Ok ["Alpha"; "Alpha 2"] ∧
  ¬ ∃ e, recommend example_titles example_similarity "Beta" (PyInt 0) = Raise e.
Proof.
  split; [apply (bool_decide_unpack _); vm_compute; reflexivity|].
  split; [vm_compute; reflexivity|].
  split; [vm_compute; reflexivity|].
  intros [e He]. vm_compute in He. discriminate.
Qed.

(** ** The metadata fetcher *)

(** The fetch never raises: what the [try] block raises is printed and
    turned into [None]; what it returns is returned. *)
Lemma getMovieData_failure (name : string) (session : Session) (e : PyExc) :
  request name session = Raise e →
  getMovieData name session = ([UnableToGet name e], Ok PyNone).
Proof. intros H. unfold getMovieData. by rewrite H. Qed.

Lemma getMovieData_success (name : string) (session : Session) (resp : PyVal) :
  request name session = Ok resp →
  getMovieData name session = ([], Ok resp).
Proof. intros H. unfold getMovieData. by rewrite H. Qed.

Lemma getMovieData_returns (name : string) (session : Session) :
  ∃ lines v, getMovieData name session = (lines, Ok v).
Proof.
  unfold getMovieData. destruct (request name session); by eexists _, _.
Qed.

(** ** The join *)

Section Gather.
Context {A : Type}.
Implicit Types (aws : list (list Line * exc A)) (vals : list A).
Implicit Types (sched : list nat) (buf : list (option A)).

Lemma gather_run_ok aws vals sched buf out :
  (∀ i, i ∈ sched → ∃ lines a, aws !! i = Some (lines, Ok a) ∧ vals !! i = Some a) →
  ∃ out', gather_run aws sched buf out =
            (ret ← mapM id (filled vals sched buf); Some (out', Ok ret)).
Proof.
  revert buf out. induction sched as [|i sched IH]; intros buf out Hok; simpl.
  - by exists out.
  - destruct (Hok i (list_elem_of_here i sched)) as (lines & a & Haw & Ha).
    rewrite Haw, Ha. apply IH. intros j Hj. apply Hok. by right.
Qed.

Lemma filled_lookup vals sched buf j :
  filled vals sched buf !! j =
    if decide (j ∈ sched ∧ j < length buf)%nat then Some (vals !! j) else buf !! j.
Proof.
  revert buf. induction sched as [|i sched IH]; intros buf.
  - case_decide as H; [|done]. destruct H as [[]%elem_of_nil _].
  - change (filled vals (i :: sched) buf)
      with (filled vals sched (<[i := vals !! i]> buf)).
    rewrite IH, length_insert.
    destruct (decide (j ∈ sched ∧ (j < length buf)%nat)) as [[Hs Hl]|Hn].
    + rewrite decide_True; [done | split; [by right | done]].
    + rewrite list_lookup_insert.
      destruct (decide (i = j ∧ (i < length buf)%nat)) as [[-> Hl]|Hi].
      * rewrite decide_True; [done | split; [by left | done]].
      * rewrite decide_False; [done|].
        intros [[->|Hs]%elem_of_cons Hl]; [by apply Hi | by apply Hn].
Qed.

Lemma filled_complete vals sched :
  complete_schedule (length vals) sched →
  filled vals sched (replicate (length vals) None) = Some <$> vals.
Proof.
  intros Hperm. apply list_eq. intros j.
  rewrite filled_lookup, length_replicate, list_lookup_fmap.
  case_decide as H.
  - destruct H as [_ Hlt]. apply lookup_lt_is_Some in Hlt as [a Ha]. by rewrite Ha.
  - destruct (decide (j < length vals)%nat) as [Hlt|Hge].
    + exfalso. apply H. split; [|done].
      unfold complete_schedule in Hperm. rewrite Hperm. apply elem_of_seq. lia.
    + rewrite (lookup_ge_None_2 vals) by lia.
      apply lookup_replicate_None. lia.
Qed.

(** When every awaitable returns, the join returns their values in the
    order of the awaitables, whatever the order of completion. *)
Lemma gather_all_ok aws vals sched :
  complete_schedule (length aws) sched →
  Forall2 (λ aw a, aw.2 = Ok a) aws vals →
  ∃ out, gather aws sched = Some (out, Ok vals).
Proof.
  intros Hperm Hall.
  pose proof (Forall2_length _ _ _ Hall) as Hlen.
  destruct (gather_run_ok aws vals sched (replicate (length aws) None) []) as [out Hrun].
  { intros i Hi. unfold complete_schedule in Hperm. rewrite Hperm in Hi.
    apply elem_of_seq in Hi.
    destruct (lookup_lt_is_Some_2 aws i) as [[lines r] Haw]; [lia|].
    destruct (Forall2_lookup_l _ _ _ _ _ Hall Haw) as (a & Ha & Hr).
    simpl in Hr. subst r. by exists lines, a. }
  exists out. unfold gather. rewrite Hrun, Hlen.
  rewrite filled_complete by (by rewrite <- Hlen).
  by rewrite mapM_fmap_Some.
Qed.
End Gather.

(** ** The orchestrator *)

Lemma getAllMovies_spec (name : list string) (net : Provider) (sched : list nat) :
  complete_schedule (length name) sched →
  ∃ out, getAllMovies name net sched = Some (out, Ok (batch_values net name)).
Proof.
  intros Hperm.
  destruct (gather_all_ok
              (imap (λ i name, getMovieData name (net i)) name)
              (batch_values net name) sched) as [out Hout].
  - by rewrite length_imap.
  - apply Forall2_same_length_lookup. split.
    + unfold batch_values. by rewrite !length_imap.
    + intros i aw v Haw Hv. unfold batch_values in Hv.
      rewrite list_lookup_imap in Haw. rewrite list_lookup_imap in Hv.
      destruct (name !! i) as [t|]; [|done].
      simpl in Haw, Hv. injection Haw as <-. injection Hv as <-.
      unfold fetched. by destruct (getMovieData_returns t (net i)) as (l & v & ->).
  - exists (out ++ [FinalizedAll (length (batch_values net name))]).
    unfold getAllMovies. by rewrite Hout.
Qed.

(** C1: for titles of length N and any order in which the fetches finish,
    [getAllMovies] returns N results, the result at each position being
    the one of the fetch for the title at that position, whether the
    lookups fail or not. *)
Theorem getAllMovies_aligned (name : list string) (net : Provider) (sched : list nat) :
  complete_schedule (length name) sched →
  ∃ out ret,
    getAllMovies name net sched = Some (out, Ok ret) ∧
    length ret = length name ∧
    ∀ i t, name !! i = Some t →
           ∃ v, ret !! i = Some v ∧ fetched t (net i) = Ok v.
Proof.
  intros [out Hout]%(getAllMovies_spec name net).
  exists out, (batch_values net name).
  split; [done|]. split; [apply length_imap|].
  intros i t Ht. unfold batch_values. rewrite list_lookup_imap, Ht. simpl.
  unfold fetched. destruct (getMovieData_returns t (net i)) as (l & v & ->).
  by exists v.
Qed.

Lemma getAllMovies_aligned_witness :
  ∃ out ret,
    getAllMovies ["Beta"; "Gamma"; "Zeta"] example_net [2; 0; 1]%nat = Some (out, Ok ret) ∧
    length ret = length ["Beta"; "Gamma"; "Zeta"] ∧
    ∀ i t, ["Beta"; "Gamma"; "Zeta"] !! i = Some t →
           ∃ v, ret !! i = Some v ∧ fetched t (example_net i) = Ok v.
Proof.
  apply getAllMovies_aligned.
  exact (Permutation_cons_append [0; 1]%nat 2%nat).
Defined.

(** C2, as the code has it: a fetch whose request raises (the connection,
    a timeout, a body that does not decode) prints the exception and
    returns [None]; nothing is raised.  A batch in which every request
    raises returns N times [None].  A response whose body decodes is not a
    failure for the code, whatever its status and its fields are: the body
    is returned. *)
Theorem fetch_failures_absorbed (name : list string) (net : Provider) (sched : list nat) :
  complete_schedule (length name) sched →
  (∀ i t, name !! i = Some t → returns (request t (net i)) = false) →
  (∀ i t, name !! i = Some t →
          ∃ e, getMovieData t (net i) = ([UnableToGet t e], Ok PyNone)) ∧
  (∃ out, getAllMovies name net sched = Some (out, Ok (replicate (length name) PyNone))) ∧
  (∀ t session status body,
     session (url t) = Responds status (Ok body) →
     getMovieData t session = ([], Ok body)).
Proof.
  intros Hperm Hfail.
  assert (∀ i t, name !! i = Some t →
                 ∃ e, getMovieData t (net i) = ([UnableToGet t e], Ok PyNone)) as Hone.
  { intros i t Ht. specialize (Hfail i t Ht).
    destruct (request t (net i)) as [resp|e] eqn:Hr; [done|].
    exists e. by apply getMovieData_failure. }
  split; [done|]. split.
  - destruct (getAllMovies_spec name net sched Hperm) as [out Hout].
    exists out. rewrite Hout. do 3 f_equal.
    apply list_eq. intros i. unfold batch_values.
    rewrite list_lookup_imap.
    destruct (name !! i) as [t|] eqn:Ht; simpl.
    + destruct (Hone i t Ht) as [e He]. unfold fetched. rewrite He. simpl.
      symmetry. apply lookup_replicate_2. by eapply lookup_lt_Some.
    + symmetry. apply lookup_replicate_None. by apply lookup_ge_None_1.
  - intros t session status body Hs.
    apply getMovieData_success. unfold request. by rewrite Hs.
Qed.

Lemma fetch_failures_absorbed_witness :
  (∀ i t, ["Beta"; "Gamma"] !! i = Some t →
          ∃ e, getMovieData t (λ _, GetRaises TimeoutError) = ([UnableToGet t e], Ok PyNone)) ∧
  (∃ out, getAllMovies ["Beta"; "Gamma"] (λ _ _, GetRaises TimeoutError) [1; 0]%nat
          = Some (out, Ok (replicate (length ["Beta"; "Gamma"]) PyNone))) ∧
  (∀ t session status body,
     session (url t) = Responds status (Ok body) →
     getMovieData t session = ([], Ok body)).
Proof.
  apply (fetch_failures_absorbed ["Beta"; "Gamma"] (λ _ _, GetRaises TimeoutError)).
  - exact (Permutation_cons_append [0]%nat 1%nat).
  - reflexivity.
Defined.

(** C2 fails as stated: a batch in which every response has the status 404
    and an error body returns the two bodies, not [None]; a body without
    any of the fields is returned as well. *)
Lemma error_response_is_not_absent :
  getAllMovies ["Beta"; "Gamma"] (λ _ _, Responds 404 (Ok not_found_body)) [0; 1]%nat
    = Some ([FinalizedAll 2], Ok [not_found_body; not_found_body]) ∧
  absent not_found_body = false ∧
  getMovieData "Beta" (λ _, Responds 200 (Ok (PyDict ∅))) = ([], Ok (PyDict ∅)).
Proof.
  split; [vm_compute; reflexivity|]. split; reflexivity.
Qed.

(** C8, as the code has it: a response whose body says that the title was
    not found is returned as it is, like any other decoded body; the
    result is not [None]. *)
Theorem getMovieData_returns_body (name : string) (session : Session)
    (status : Z) (d : gmap string PyVal) :
  session (url name) = Responds status (Ok (PyDict d)) →
  d !! "Response" = Some (PyStr "False") →
  getMovieData name session = ([], Ok (PyDict d)) ∧
  absent (PyDict d) = false.
Proof.
  intros Hs _. split; [|done].
  apply getMovieData_success. unfold request. by rewrite Hs.
Qed.

Lemma getMovieData_returns_body_witness :
  getMovieData "UnknownTitle999" (example_net 0%nat) = ([], Ok not_found_body) ∧
  absent not_found_body = false.
Proof.
  apply (getMovieData_returns_body "UnknownTitle999" (example_net 0%nat) 200).
  - vm_compute. reflexivity.
  - vm_compute. reflexivity.
Defined.

(** C8 fails as stated: for a body with ["Response": "False"] the fetch
    returns that body, not [None]. *)
Lemma not_found_body_is_returned :
  example_net 0%nat (url "UnknownTitle999") = Responds 200 (Ok not_found_body) ∧
  (∃ d, not_found_body = PyDict d ∧ d !! "Response" = Some (PyStr "False")) ∧
  fetched "UnknownTitle999" (example_net 0%nat) = Ok not_found_body ∧
  fetched "UnknownTitle999" (example_net 0%nat) ≠ Ok PyNone.
Proof.
  split; [vm_compute; reflexivity|].
  split; [eexists; split; [reflexivity | vm_compute; reflexivity]|].
  split; [vm_compute; reflexivity|].
  intros H. vm_compute in H. discriminate.
Qed.

(** ** Cards *)

(** A result that is not [None] renders, if at all, as exactly one card. *)
Lemma handle_card_data_length (data : PyVal) (html : Html) :
  handle_card_data data = Ok html →
  length html = if absent data then 0%nat else 1%nat.
Proof.
  destruct data; simpl; intros H;
    try discriminate; try (by injection H as <-).
  destruct (py_float _); simpl in H; [by injection H as <- | discriminate].
Qed.

Lemma join_cards_cons (data : PyVal) (result : list PyVal) :
  join_cards (data :: result) =
    (c ← handle_card_data data; cs ← join_cards result; Ok (c ++ cs)).
Proof. reflexivity. Qed.

Lemma join_cards_length (result : list PyVal) (html : Html) :
  join_cards result = Ok html →
  length html = length (filter (λ data, absent data = false) result).
Proof.
  revert html. induction result as [|data result IH]; intros html; simpl.
  - by intros [= <-].
  - destruct (handle_card_data data) as [c|] eqn:Hc; simpl; [|done].
    destruct (join_cards result) as [cs|]; simpl; [|done].
    intros [= <-]. apply handle_card_data_length in Hc.
    rewrite length_app, Hc, (IH cs) by done.
    rewrite filter_cons. destruct data; simpl; done.
Qed.

Lemma join_cards_returns (result : list PyVal) :
  Forall (λ data, returns (handle_card_data data) = true) result →
  ∃ html, join_cards result = Ok html.
Proof.
  induction 1 as [|data result Hd _ [cs IH]]; simpl; [by eexists|].
  destruct (handle_card_data data) as [c|]; [|done].
  rewrite IH. by eexists.
Qed.

(** What [handle_card_data] does with a mapping, by the rating it finds. *)
Lemma handle_card_data_dict (d : gmap string PyVal) :
  handle_card_data (PyDict d) =
    (rating ← py_float (if in_empty_values (default PyNone (d !! "imdbRating"))
                        then PyInt 0 else default PyNone (d !! "imdbRating"));
     Ok (card (if in_empty_values (default PyNone (d !! "imdbID"))
               then PyNone else default PyNone (d !! "imdbID"))
              (default PyNone (d !! "Title"))
              (if in_empty_values (default PyNone (d !! "Poster"))
               then PyStr fallback_image else default PyNone (d !! "Poster"))
              rating)).
Proof. reflexivity. Qed.

(** C7, as the code has it: a result that is [None] is rendered as the
    empty string, so it is left out, and the number of cards is the number
    of results that are not [None] (when every result renders); the
    fallback image and the rating 0.0 are those of a result that is
    present but has no poster and no rating. *)
Theorem absent_results_are_omitted (result : list PyVal) :
  Forall (λ data, returns (handle_card_data data) = true) result →
  handle_card_data PyNone = Ok [] ∧
  (∃ html, join_cards result = Ok html ∧
           length html = length (filter (λ data, absent data = false) result)) ∧
  (∀ d, in_empty_values (default PyNone (d !! "Poster")) = true →
        in_empty_values (default PyNone (d !! "imdbRating")) = true →
        ∃ c, handle_card_data (PyDict d) = Ok [c] ∧
             card_image c = PyStr fallback_image ∧
             card_rating c = FDec false 0 0).
Proof.
  intros Hall. split; [done|]. split.
  - destruct (join_cards_returns result Hall) as [html Hj].
    exists html. split; [done|]. by apply join_cards_length.
  - intros d Hp Hr. rewrite handle_card_data_dict, Hp, Hr. simpl.
    by eexists.
Qed.

Lemma absent_results_are_omitted_witness :
  handle_card_data PyNone = Ok [] ∧
  (∃ html, join_cards [beta_body; PyNone; not_found_body] = Ok html ∧
           length html =
             length (filter (λ data, absent data = false) [beta_body; PyNone; not_found_body])) ∧
  (∀ d, in_empty_values (default PyNone (d !! "Poster")) = true →
        in_empty_values (default PyNone (d !! "imdbRating")) = true →
        ∃ c, handle_card_data (PyDict d) = Ok [c] ∧
             card_image c = PyStr fallback_image ∧
             card_rating c = FDec false 0 0).
Proof.
  apply absent_results_are_omitted.
  repeat constructor.
Defined.

(** C7 fails as stated: two titles are ranked, the fetch of the second
    times out, and one card is rendered. *)
Lemma absent_result_drops_a_card :
  recommend example_titles example_similarity "Alpha" (PyInt 2) = Ok ["Beta"; "Gamma"] ∧
  (∃ out ret html,
     getAllMovies ["Beta"; "Gamma"] example_net [1; 0]%nat = Some (out, Ok ret) ∧
     ret !! 1%nat = Some PyNone ∧
     main example_titles example_similarity "Alpha" 2 example_net [1; 0]%nat
       = Some (out, Ok html) ∧
     length html = 1%nat) ∧
  join_cards [PyNone] = Ok [].
Proof.
  split; [vm_compute; reflexivity|]. split; [|reflexivity].
  eexists _, _, _. split; [vm_compute; reflexivity|].
  split; [reflexivity|]. split; [vm_compute; reflexivity | reflexivity].
Qed.

(** C9, as the code has it: a rating ["N/A"] gives the rating 0.0; any
    other rating string that [float] reads gives that number; a rating
    string that [float] does not read makes [handle_card_data] raise
    [ValueError]: it is not turned into an absent result. *)
Theorem rating_sentinel_or_error (d : gmap string PyVal) (s : string) :
  d !! "imdbRating" = Some (PyStr s) →
  (s = "N/A" → ∃ c, handle_card_data (PyDict d) = Ok [c] ∧ card_rating c = FDec false 0 0) ∧
  (s ≠ "N/A" → ∀ f, float_of_string s = Ok f →
     ∃ c, handle_card_data (PyDict d) = Ok [c] ∧ card_rating c = f) ∧
  (s ≠ "N/A" → float_of_string s = Raise ValueError →
     handle_card_data (PyDict d) = Raise ValueError ∧
     ∀ result, join_cards (PyDict d :: result) = Raise ValueError).
Proof.
  intros Hd. split; [|split].
  - intros ->. rewrite handle_card_data_dict, Hd. simpl. by eexists.
  - intros Hs f Hf. rewrite handle_card_data_dict, Hd. simpl.
    rewrite bool_decide_false by done. simpl. rewrite Hf. simpl. by eexists.
  - intros Hs Hf.
    assert (handle_card_data (PyDict d) = Raise ValueError) as Hraise.
    { rewrite handle_card_data_dict, Hd. simpl.
      rewrite bool_decide_false by done. simpl. by rewrite Hf. }
    split; [done|]. intros result.
    rewrite join_cards_cons. by rewrite Hraise.
Qed.

Lemma rating_sentinel_or_error_witness :
  ("abc" = "N/A" →
     ∃ c, handle_card_data (PyDict {["imdbRating" := PyStr "abc"]}) = Ok [c] ∧
          card_rating c = FDec false 0 0) ∧
  ("abc" ≠ "N/A" → ∀ f, float_of_string "abc" = Ok f →
     ∃ c, handle_card_data (PyDict {["imdbRating" := PyStr "abc"]}) = Ok [c] ∧
          card_rating c = f) ∧
  ("abc" ≠ "N/A" → float_of_string "abc" = Raise ValueError →
     handle_card_data (PyDict {["imdbRating" := PyStr "abc"]}) = Raise ValueError ∧
     ∀ result, join_cards (PyDict {["imdbRating" := PyStr "abc"]} :: result) = Raise ValueError).
Proof.
  apply rating_sentinel_or_error.
  vm_compute. reflexivity.
Defined.

(** C9 fails as stated: the rating ["abc"] is not turned into an absent
    result, the conversion raises and nothing catches it. *)
Lemma non_numeric_rating_raises :
  handle_card_data (PyDict {["imdbRating" := PyStr "abc"]}) = Raise ValueError ∧
  join_cards [PyDict {["imdbRating" := PyStr "abc"]}] = Raise ValueError ∧
  handle_card_data (PyDict {["imdbRating" := PyStr "N/A"]})
    = Ok (card PyNone PyNone (PyStr fallback_image) (FDec false 0 0)).
Proof.
  split; [vm_compute; reflexivity|]. split; vm_compute; reflexivity.
Qed.

(** * Further properties *)

(** ** The order of [distances] *)

Lemma ranks_before_asym (p q : nat * Qc) :
  ranks_before p q → ranks_before q p → False.
Proof.
  intros Hpq Hqp. apply (ranks_before_irrefl p). by eapply ranks_before_trans.
Qed.

(** X1: [distances] holds every entry of [enumerate(row)] once, higher scores
    first and equal scores in row order, and it is the only arrangement of
    these entries in that order: the result of the stable sort does not
    depend on how the sort proceeds. *)
Theorem distances_sorted_unique (row : list Qc) :
  sorted_desc (enumerate row) ≡ₚ enumerate row ∧
  StronglySorted ranks_before (sorted_desc (enumerate row)) ∧
  ∀ l, l ≡ₚ enumerate row → StronglySorted ranks_before l →
       l = sorted_desc (enumerate row).
Proof.
  split; [apply sorted_desc_perm|].
  split; [apply sorted_enumerate_from|].
  intros l Hperm Hsorted.
  apply (StronglySorted_unique_strong ranks_before); [|done|..].
  - intros p q _ _ Hpq Hqp. by destruct (ranks_before_asym p q).
  - apply sorted_enumerate_from.
  - by rewrite Hperm, sorted_desc_perm.
Qed.

(** ** The ranker on any catalogue and matrix *)

Section RankerAnyInput.
Context (new_movies_df : list string) (similarity : list (list Qc)).

(** The loop stops with [IndexError] at the first row number beyond the
    catalogue. *)
Lemma recommend_loop_raises (movie : string) (ds : list (nat * Qc)) (acc : list string) :
  Exists (λ p, (length new_movies_df ≤ p.1)%nat) ds →
  recommend_loop new_movies_df movie ds acc = Raise IndexError.
Proof.
  intros Hex. revert acc. induction Hex as [p ds Hp|p ds _ IH]; intros acc; simpl.
  - unfold iloc_title. by rewrite (lookup_ge_None_2 new_movies_df) by lia.
  - unfold iloc_title. destruct (new_movies_df !! p.1) as [title|]; [|done]. simpl.
    destruct (str_in movie title); apply IH.
Qed.

(** The loop either reads every row it is given and returns the kept
    titles, or meets a row number beyond the catalogue and raises. *)
Lemma recommend_loop_cases (movie : string) (ds : list (nat * Qc)) (acc : list string) :
  (Forall (λ p, (p.1 < length new_movies_df)%nat) ds ∧
   recommend_loop new_movies_df movie ds acc =
     Ok (acc ++ titles_of new_movies_df (filter (λ p, kept new_movies_df movie p) ds))) ∨
  (Exists (λ p, (length new_movies_df ≤ p.1)%nat) ds ∧
   recommend_loop new_movies_df movie ds acc = Raise IndexError).
Proof.
  destruct (decide (Forall (λ p, (p.1 < length new_movies_df)%nat) ds)) as [Hall|Hnot].
  - left. split; [done|]. by apply recommend_loop_spec.
  - right. apply not_Forall_Exists in Hnot; [|apply _].
    assert (Exists (λ p, (length new_movies_df ≤ p.1)%nat) ds) as Hex.
    { eapply Exists_impl; [exact Hnot|]. intros p Hp. simpl in Hp. lia. }
    split; [done|]. by apply recommend_loop_raises.
Qed.

Lemma py_slice_to_subseteq {A} (l k : list A) (stop : PyVal) :
  py_slice_to l stop = Ok k → k `sublist_of` l.
Proof.
  destruct stop; simpl; intros [= <-]; try done; apply sublist_take.
Qed.

(** X2: whatever the matrix and the count are, a list that [recommend]
    returns holds only catalogue titles and none that contains the query
    title. *)
Theorem recommend_never_returns_query (movie : string) (length : PyVal) (l : list string) :
  recommend new_movies_df similarity movie length = Ok l →
  Forall (λ t, t ∈ new_movies_df ∧ ¬ contains t movie) l.
Proof.
  unfold recommend, title_index, similarity_row.
  destruct (list_find _ _) as [[index ?]|]; [|done]. simpl.
  destruct (similarity !! index) as [row|]; [|done]. simpl.
  destruct (recommend_loop_cases movie (tail (sorted_desc (enumerate row))) [])
    as [[_ ->]|[_ ->]]; [|done]. simpl.
  intros Hl%py_slice_to_subseteq.
  apply Forall_forall. intros t Ht.
  pose proof (elem_of_sublist _ _ _ Ht Hl) as (p & Hp & Hpt)%list_elem_of_omap.
  split; [by eapply list_elem_of_lookup_2|].
  apply list_elem_of_filter in Hp as [Hk _].
  unfold kept in Hk. rewrite Hpt in Hk.
  rewrite <- str_in_spec. by destruct (str_in movie t).
Qed.

Lemma recommend_int_raises (movie : string) (K : Z) (e : PyExc) :
  recommend new_movies_df similarity movie (PyInt K) = Raise e → e = IndexError.
Proof.
  unfold recommend, title_index, similarity_row.
  destruct (list_find _ _) as [[index ?]|]; simpl; [|by intros [= <-]].
  destruct (similarity !! index) as [row|]; simpl; [|by intros [= <-]].
  destruct (recommend_loop_cases movie (tail (sorted_desc (enumerate row))) [])
    as [[_ ->]|[_ ->]]; simpl; [done | by intros [= <-]].
Qed.

(** X4: when a title occurs several times in the catalogue, the row of the
    matrix that is used is the one of its first occurrence; a row that is
    not longer than the catalogue is enough for [recommend] to return. *)
Theorem recommend_first_occurrence (movie : string) (i : nat) (row : list Qc)
    (length : PyVal) :
  new_movies_df !! i = Some movie →
  (∀ j, (j < i)%nat → new_movies_df !! j ≠ Some movie) →
  similarity !! i = Some row →
  (List.length row ≤ List.length new_movies_df)%nat →
  recommend new_movies_df similarity movie length =
    py_slice_to (titles_of new_movies_df (ranked new_movies_df movie row)) length.
Proof.
  intros Hi Hfirst Hrow Hlen.
  assert (list_find (λ t, t = movie) new_movies_df = Some (i, movie)) as Hf.
  { apply list_find_Some. split; [done|]. split; [done|].
    intros j t Hj Hlt ->. by apply (Hfirst j). }
  unfold recommend, title_index, similarity_row. rewrite Hf. simpl. rewrite Hrow. simpl.
  rewrite recommend_loop_spec; [done|].
  apply Forall_forall. intros p Hp.
  assert (p ∈ enumerate row) as (k & Hk & Hr)%enumerate_from_spec.
  { rewrite <- (sorted_desc_perm (enumerate row)).
    eapply elem_of_sublist; [exact Hp | apply (sublist_drop _ 1)]. }
  apply lookup_lt_Some in Hr. lia.
Qed.
End RankerAnyInput.

Lemma recommend_never_returns_query_witness :
  Forall (λ t, t ∈ remake_titles ∧ ¬ contains t "A") ["B"; "B"].
Proof.
  apply (recommend_never_returns_query remake_titles remake_similarity "A" PyNone).
  vm_compute. reflexivity.
Defined.

Lemma recommend_first_occurrence_witness :
  recommend remake_titles remake_similarity "B" (PyInt 1) =
    py_slice_to
      (titles_of remake_titles (ranked remake_titles "B" [Q2Qc (1 # 2); Q2Qc 1; Q2Qc 1]))
      (PyInt 1).
Proof.
  apply (recommend_first_occurrence remake_titles remake_similarity "B" 1%nat).
  - reflexivity.
  - intros j Hj. assert (j = 0%nat) as -> by lia. discriminate.
  - reflexivity.
  - simpl. lia.
Defined.

(** ** The join and the batch, for any order of completion *)

Section GatherMore.
Context {A : Type}.
Implicit Types (aws : list (list Line * exc A)) (vals : list A).
Implicit Types (sched : list nat) (buf : list (option A)).

(** The lines printed by the awaitables, in the order of completion. *)
Lemma gather_run_out aws vals sched buf out :
  (∀ i, i ∈ sched → ∃ lines a, aws !! i = Some (lines, Ok a) ∧ vals !! i = Some a) →
  gather_run aws sched buf out =
    (ret ← mapM id (filled vals sched buf);
     Some (out ++ (i ← sched; default [] (fst <$> aws !! i)), Ok ret)).
Proof.
  revert buf out. induction sched as [|i sched IH]; intros buf out Hok.
  - simpl. by rewrite app_nil_r.
  - destruct (Hok i (list_elem_of_here i sched)) as (lines & a & Haw & Ha).
    change (filled vals (i :: sched) buf)
      with (filled vals sched (<[i := vals !! i]> buf)).
    simpl. rewrite Haw, Ha. rewrite IH.
    + simpl. by rewrite <- app_assoc.
    + intros j Hj. apply Hok. by right.
Qed.

Lemma gather_run_never_raises aws sched buf out o e :
  Forall (λ aw, returns aw.2 = true) aws →
  gather_run aws sched buf out ≠ Some (o, Raise e).
Proof.
  intros Hall. revert buf out. induction sched as [|i sched IH]; intros buf out; simpl.
  - by destruct (mapM id buf).
  - destruct (aws !! i) as [[lines [a|e']]|] eqn:Haw; [apply IH| |done].
    rewrite Forall_forall in Hall.
    by specialize (Hall _ (list_elem_of_lookup_2 _ _ _ Haw)).
Qed.

(** An awaitable that is left unfinished keeps the join from returning. *)
Lemma gather_run_unfinished aws sched buf out i :
  Forall (λ aw, returns aw.2 = true) aws →
  i ∉ sched →
  buf !! i = Some None →
  gather_run aws sched buf out = None.
Proof.
  intros Hall. revert buf out. induction sched as [|j sched IH]; intros buf out Hi Hbuf; simpl.
  - assert (mapM id buf = None) as ->; [|done].
    apply mapM_None, Exists_exists. exists None.
    split; [by eapply list_elem_of_lookup_2 | done].
  - apply not_elem_of_cons in Hi as [Hij Hi].
    destruct (aws !! j) as [[lines [a|e']]|] eqn:Haw; [|exfalso|done].
    + apply IH; [done|]. by rewrite list_lookup_insert_ne.
    + rewrite Forall_forall in Hall.
      by specialize (Hall _ (list_elem_of_lookup_2 _ _ _ Haw)).
Qed.
End GatherMore.

Lemma fetches_return (name : list string) (net : Provider) :
  Forall (λ aw, returns aw.2 = true)
         (imap (λ i name, getMovieData name (net i)) name).
Proof.
  apply Forall_forall. intros aw (i & Hi)%list_elem_of_lookup_1.
  rewrite list_lookup_imap in Hi.
  destruct (name !! i) as [t|]; [|done]. simpl in Hi. injection Hi as <-.
  by destruct (getMovieData_returns t (net i)) as (l & v & ->).
Qed.

Lemma getAllMovies_not_Raise (name : list string) (net : Provider)
    (sched : list nat) (out : list Line) (e : PyExc) :
  getAllMovies name net sched ≠ Some (out, Raise e).
Proof.
  unfold getAllMovies, gather.
  destruct (gather_run _ _ _ _) as [[o [ret|e']]|] eqn:Hg; simpl; [done| |done].
  by destruct (gather_run_never_raises _ _ _ _ _ _ (fetches_return name net) Hg).
Qed.

(** X7: whatever the order of completion is, and whether it is complete or
    not, [getAllMovies] does not raise: no failure of a request leaves the
    batch. *)
Theorem getAllMovies_never_raises (name : list string) (net : Provider)
    (sched : list nat) (out : list Line) (e : PyExc) :
  getAllMovies name net sched ≠ Some (out, Raise e).
Proof. apply getAllMovies_not_Raise. Qed.

(** X8: [getAllMovies] does not return while a fetch is unfinished: a
    schedule that leaves out a position of the batch gives no result. *)
Theorem getAllMovies_waits_for_all (name : list string) (net : Provider)
    (sched : list nat) (i : nat) :
  (i < length name)%nat →
  i ∉ sched →
  getAllMovies name net sched = None.
Proof.
  intros Hlt Hi. unfold getAllMovies, gather.
  rewrite (gather_run_unfinished _ sched _ [] i); [done|apply fetches_return|done|].
  apply lookup_replicate_2. by rewrite length_imap.
Qed.

Lemma getAllMovies_waits_for_all_witness :
  getAllMovies ["Beta"; "Gamma"; "Zeta"] example_net [2; 0]%nat = None.
Proof.
  apply (getAllMovies_waits_for_all _ _ _ 1%nat).
  - simpl. lia.
  - apply (bool_decide_unpack _). vm_compute. reflexivity.
Defined.

Lemma getAllMovies_exact (name : list string) (net : Provider) (sched : list nat) :
  complete_schedule (length name) sched →
  getAllMovies name net sched =
    Some (batch_lines net name sched ++ [FinalizedAll (length name)],
          Ok (batch_values net name)).
Proof.
  intros Hperm. unfold getAllMovies, gather.
  rewrite (gather_run_out _ (batch_values net name)).
  - rewrite length_imap.
    replace (length name) with (length (batch_values net name)) at 1
      by apply length_imap.
    rewrite filled_complete by (unfold batch_values; by rewrite length_imap).
    rewrite mapM_fmap_Some by done. simpl.
    replace (length (batch_values net name)) with (length name)
      by (symmetry; apply length_imap).
    do 3 f_equal.
    unfold batch_lines. apply list_bind_ext; [|done].
    intros i. rewrite list_lookup_imap.
    destruct (name !! i) as [t|]; [|done]. simpl.
    unfold getMovieData. by destruct (request t (net i)).
  - intros i Hi. unfold complete_schedule in Hperm. rewrite Hperm in Hi.
    apply elem_of_seq in Hi.
    destruct (lookup_lt_is_Some_2 name i) as [t Ht]; [lia|].
    unfold batch_values. rewrite !list_lookup_imap, Ht. simpl.
    unfold fetched. destruct (getMovieData_returns t (net i)) as (l & v & ->).
    by exists l, v.
Qed.

(** X9: for a complete schedule, what [getAllMovies] prints is one line for
    each request that raised, in the order in which the fetches finish,
    and then the line with the number of titles; it returns the values of
    the batch. *)
Theorem getAllMovies_output (name : list string) (net : Provider) (sched : list nat) :
  complete_schedule (length name) sched →
  getAllMovies name net sched =
    Some (batch_lines net name sched ++ [FinalizedAll (length name)],
          Ok (batch_values net name)).
Proof. apply getAllMovies_exact. Qed.

Lemma getAllMovies_output_witness :
  getAllMovies ["Beta"; "Gamma"; "Zeta"] example_net [2; 0; 1]%nat =
    Some (batch_lines example_net ["Beta"; "Gamma"; "Zeta"] [2; 0; 1]%nat
            ++ [FinalizedAll (length ["Beta"; "Gamma"; "Zeta"])],
          Ok (batch_values example_net ["Beta"; "Gamma"; "Zeta"])).
Proof.
  apply getAllMovies_output.
  exact (Permutation_cons_append [0; 1]%nat 2%nat).
Defined.

(** X10: fault isolation.  In the batch that [getAllMovies] returns, the
    position of a title whose request succeeded holds the decoded body,
    unchanged, and the position of a title whose request raised holds
    [None]; the other positions are not affected by a failure. *)
Theorem getAllMovies_isolates_failures (name : list string) (net : Provider)
    (sched : list nat) :
  complete_schedule (length name) sched →
  ∃ out ret,
    getAllMovies name net sched = Some (out, Ok ret) ∧
    ∀ i t, name !! i = Some t →
      (∀ resp, request t (net i) = Ok resp → ret !! i = Some resp) ∧
      (∀ e, request t (net i) = Raise e → ret !! i = Some PyNone).
Proof.
  intros Hperm. eexists _, _. split; [by apply getAllMovies_exact|].
  intros i t Ht. unfold batch_values. rewrite list_lookup_imap, Ht. simpl.
  unfold fetched, getMovieData.
  split; [intros resp Hr | intros e Hr]; by rewrite Hr.
Qed.

Lemma getAllMovies_isolates_failures_witness :
  ∃ out ret,
    getAllMovies ["Beta"; "Gamma"; "Zeta"] example_net [1; 2; 0]%nat = Some (out, Ok ret) ∧
    ∀ i t, ["Beta"; "Gamma"; "Zeta"] !! i = Some t →
      (∀ resp, request t (example_net i) = Ok resp → ret !! i = Some resp) ∧
      (∀ e, request t (example_net i) = Raise e → ret !! i = Some PyNone).
Proof.
  apply getAllMovies_isolates_failures.
  exact (Permutation_app_comm [1; 2]%nat [0]%nat).
Defined.

(** ** Cards *)

Lemma ten_power_pos (z : Z) : (0 < 10 ^ z)%Q.
Proof. by apply Qpower_0_lt. Qed.

Lemma ten_power_plus (a b : Z) : (10 ^ (a + b) == 10 ^ a * 10 ^ b)%Q.
Proof. by apply Qpower_plus. Qed.

(** The test [rating > n / 10] of the model compares the numbers that the
    floats stand for. *)
Lemma float_gt_tenths_spec (f : PyFloat) (n : N) :
  float_gt_tenths f n = true ↔ above_tenths f n.
Proof.
  destruct f as [[|] m e|[|]|]; simpl; try (split; [done | done]).
  - split; [done|]. intros Hlt. exfalso.
    assert (0 <= inject_Z (Z.of_N n) / 10)%Q as Hn.
    { unfold Qle, Qdiv, Qmult, Qinv. simpl. lia. }
    assert (- inject_Z (Z.of_N m) * 10 ^ e <= 0)%Q as Hm.
    { assert (- inject_Z (Z.of_N m) * 10 ^ e == - (inject_Z (Z.of_N m) * 10 ^ e))%Q
        as Heq by ring.
      rewrite Heq. apply (Qopp_le_compat 0). apply Qmult_le_0_compat.
      - unfold Qle. simpl. lia.
      - apply Qlt_le_weak, ten_power_pos. }
    eapply Qlt_not_le; [exact Hlt|]. by eapply Qle_trans.
  - destruct (0 <=? e + 1) eqn:He.
    + apply Z.leb_le in He. rewrite Z.ltb_lt, Zlt_Qlt, inject_Z_mult.
      rewrite (Zpower_Qpower 10 (e + 1)) by done.
      rewrite <- (Qmult_lt_r _ _ (10 ^ (-1))) by apply ten_power_pos.
      rewrite <- Qmult_assoc, <- ten_power_plus.
      by replace (e + 1 + -1) with e by lia.
    + apply Z.leb_gt in He. rewrite Z.ltb_lt, Zlt_Qlt, inject_Z_mult.
      rewrite (Zpower_Qpower 10 (- (e + 1))) by lia.
      rewrite <- (Qmult_lt_r _ _ (10 ^ e)) by apply ten_power_pos.
      rewrite <- Qmult_assoc, <- ten_power_plus.
      by replace (- (e + 1) + e) with (-1) by lia.
Qed.

Lemma above_tenths_mono (f : PyFloat) :
  above_tenths f 75 → above_tenths f 55.
Proof.
  destruct f as [neg m e| |]; simpl; [|done..].
  apply Qlt_trans. reflexivity.
Qed.

(** X11: the colour of a card is green when the rating is above 7.5, orange
    when it is above 5.5 but not above 7.5, and red otherwise, which
    includes a rating that is not a number. *)
Theorem card_colour_bands (imdb_id name image : PyVal) (rating : PyFloat) :
  ∃ c, card imdb_id name image rating = [c] ∧
       card_rating c = rating ∧
       (card_color c = "rgb(34, 197, 94)" ↔ above_tenths rating 75) ∧
       (card_color c = "rgb(251, 146, 60)" ↔
          above_tenths rating 55 ∧ ¬ above_tenths rating 75) ∧
       (card_color c = "rgb(220, 38, 38)" ↔ ¬ above_tenths rating 55).
Proof.
  eexists. split; [reflexivity|]. split; [reflexivity|]. simpl.
  pose proof (above_tenths_mono rating) as Hmono.
  assert ((float_gt_tenths rating 55 = true ∧ above_tenths rating 55) ∨
          (float_gt_tenths rating 55 = false ∧ ¬ above_tenths rating 55)) as H55.
  { rewrite <- float_gt_tenths_spec. destruct (float_gt_tenths rating 55); auto. }
  assert ((float_gt_tenths rating 75 = true ∧ above_tenths rating 75) ∨
          (float_gt_tenths rating 75 = false ∧ ¬ above_tenths rating 75)) as H75.
  { rewrite <- float_gt_tenths_spec. destruct (float_gt_tenths rating 75); auto. }
  destruct H55 as [[-> H55]|[-> H55]], H75 as [[-> H75]|[-> H75]];
    (split; [|split]); split; intros; try done; tauto.
Qed.

(** X12: the link of a card goes to the title page of the record's
    [imdbID], and to the home page exactly when the identifier is missing,
    null or ["N/A"]. *)
Theorem card_link (d : gmap string PyVal) (c : Card) :
  handle_card_data (PyDict d) = Ok [c] →
  (card_url c = ImdbHome ↔ in_empty_values (default PyNone (d !! "imdbID")) = true) ∧
  (in_empty_values (default PyNone (d !! "imdbID")) = false →
   card_url c = ImdbTitle (default PyNone (d !! "imdbID"))).
Proof.
  rewrite handle_card_data_dict.
  destruct (py_float _) as [rating|]; simpl; [|done].
  intros [= <-]. simpl.
  destruct (default PyNone (d !! "imdbID")) as [| | | |s| |] eqn:Hid; simpl;
    try (split; [split|]; done).
  case_bool_decide; simpl; split; try split; done.
Qed.

Lemma card_link_witness :
  (card_url beta_card = ImdbHome ↔
     in_empty_values (default PyNone (beta_fields !! "imdbID")) = true) ∧
  (in_empty_values (default PyNone (beta_fields !! "imdbID")) = false →
   card_url beta_card = ImdbTitle (default PyNone (beta_fields !! "imdbID"))).
Proof.
  apply card_link. vm_compute. reflexivity.
Defined.

Lemma float_of_string_raises (s : string) (e : PyExc) :
  float_of_string s = Raise e → e = ValueError.
Proof.
  unfold float_of_string.
  destruct (mapM _ _) as [cs|]; [|by intros [= <-]].
  destruct (sign _) as [neg r].
  destruct (_ || _); [done|].
  destruct (bool_decide _); [done|].
  destruct (number r) as [[[m x] r']|]; [|by intros [= <-]].
  destruct (exponent r'); [|by intros [= <-]].
  by destruct (nearest_double _ _) as [[m' e']|].
Qed.

Lemma float_of_int_raises (z : Z) (e : PyExc) :
  float_of_int z = Raise e → e = OverflowError.
Proof.
  unfold float_of_int.
  destruct (nearest_double _ _) as [[m' e']|]; [done | by intros [= <-]].
Qed.

(** The conversion on some ratings: the double nearest to 8.8, blanks at
    both ends (also the no-break space U+00A0), a digit of another script
    (U+0667), an underscore between digits, a number beyond the doubles,
    and texts that are refused (the character 31 is no blank for [float]). *)
Example float_of_string_samples :
  float_of_string "8.8" =
    Ok (FDec false 8800000000000000710542735760100185871124267578125 (-48)) ∧
  float_of_string " 7.5 " = Ok (FDec false 75 (-1)) ∧
  float_of_string (String (ascii_of_N 194) (String (ascii_of_N 160) "7.5")) =
    Ok (FDec false 75 (-1)) ∧
  float_of_string (String (ascii_of_N 217) (String (ascii_of_N 167) EmptyString)) =
    Ok (FDec false 7 0) ∧
  float_of_string "1_0.5" = Ok (FDec false 105 (-1)) ∧
  float_of_string "1e400" = Ok (FInf false) ∧
  float_of_string "-Infinity" = Ok (FInf true) ∧
  float_of_string (String (ascii_of_N 31) "7.5") = Raise ValueError ∧
  float_of_string "7,5" = Raise ValueError ∧
  float_of_string EmptyString = Raise ValueError.
Proof. repeat split; vm_compute; reflexivity. Qed.

Example float_of_int_samples :
  float_of_int (2 ^ 53 + 1) = Ok (FDec false 9007199254740992 0) ∧
  float_of_int (2 ^ 1024) = Raise OverflowError.
Proof. split; vm_compute; reflexivity. Qed.

Lemma py_float_raises (v : PyVal) (e : PyExc) :
  py_float v = Raise e → e = ValueError ∨ e = TypeError ∨ e = OverflowError.
Proof.
  destruct v; simpl; try (intros [= <-]; tauto); try done.
  - intros ->%float_of_int_raises. tauto.
  - intros ->%float_of_int_raises. tauto.
  - intros ->%float_of_string_raises. tauto.
Qed.

Lemma handle_card_data_raises (data : PyVal) (e : PyExc) :
  handle_card_data data = Raise e →
  (is_dict data = false ∧ e = AttributeError) ∨
  (is_dict data = true ∧ (e = ValueError ∨ e = TypeError ∨ e = OverflowError)).
Proof.
  destruct data as [| | | | | |d]; try done; try (intros [= <-]; by left).
  rewrite handle_card_data_dict.
  destruct (py_float _) as [rating|e'] eqn:Hf; simpl; [done|].
  intros [= <-]. right. split; [done|]. by eapply py_float_raises.
Qed.

(** X13: [handle_card_data] raises [AttributeError] exactly for a result
    that is neither [None] nor a mapping, such as a body that decodes to a
    list or a string. *)
Theorem handle_card_data_AttributeError (data : PyVal) :
  handle_card_data data = Raise AttributeError ↔
  absent data = false ∧ is_dict data = false.
Proof.
  split.
  - intros H. pose proof (handle_card_data_raises _ _ H) as [[Hd _]|[_ He]].
    + split; [|done]. by destruct data.
    + destruct He as [?|[?|?]]; discriminate.
  - intros [Ha Hd]. by destruct data.
Qed.

(** X14: the rendering of a batch stops at the first result that cannot be
    rendered: [join_cards] raises [e] exactly when some result raises [e]
    and all the results in front of it render; no card of the batch is
    produced then. *)
Theorem join_cards_first_failure (result : list PyVal) (e : PyExc) :
  join_cards result = Raise e ↔
  ∃ before data after,
    result = before ++ data :: after ∧
    Forall (λ d, returns (handle_card_data d) = true) before ∧
    handle_card_data data = Raise e.
Proof.
  split.
  - induction result as [|data result IH]; [done|].
    rewrite join_cards_cons.
    destruct (handle_card_data data) as [c|e'] eqn:Hc; simpl.
    + destruct (join_cards result) as [cs|e'] eqn:Hcs; simpl; [done|].
      intros [= ->]. destruct (IH eq_refl) as (before & d & after & -> & Hall & Hd).
      exists (data :: before), d, after. split; [done|]. split; [|done].
      constructor; [by rewrite Hc | done].
    + intros [= ->]. by exists [], data, result.
  - intros (before & data & after & -> & Hall & Hd).
    induction Hall as [|d before Hret _ IH]; simpl.
    + by rewrite Hd.
    + destruct (handle_card_data d); [|done]. simpl. by rewrite IH.
Qed.

Lemma join_cards_raises (result : list PyVal) (e : PyExc) :
  join_cards result = Raise e →
  ∃ data, data ∈ result ∧ handle_card_data data = Raise e.
Proof.
  induction result as [|data result IH]; [done|].
  rewrite join_cards_cons.
  destruct (handle_card_data data) as [c|e'] eqn:Hc; simpl.
  - destruct (join_cards result) as [cs|e'] eqn:Hcs; simpl; [done|].
    intros [= ->]. destruct (IH eq_refl) as (d & Hd & He).
    exists d. split; [by right | done].
  - intros [= ->]. exists data. split; [by left | done].
Qed.

(** ** The whole of [main] *)

(** X15: no exception of the network or of the decoding of a body leaves
    [main]: whatever the provider does and in whatever order the fetches
    finish, an exception raised by [main] is the [IndexError] of the
    ranker or an error of the rendering. *)
Theorem main_raises_no_network_error (new_movies_df : list string)
    (similarity : list (list Qc)) (movie : string) (no_of_recommendations : Z)
    (net : Provider) (sched : list nat) (out : list Line) (e : PyExc) :
  main new_movies_df similarity movie no_of_recommendations net sched
    = Some (out, Raise e) →
  network_error e = false.
Proof.
  unfold main.
  destruct (recommend _ _ _ _) as [recommendations|e'] eqn:Hrec.
  - destruct (getAllMovies recommendations net sched) as [[o [result|e']]|] eqn:Hget;
      simpl; [| |done].
    + intros [= _ Hj]. apply join_cards_raises in Hj as (data & _ & Hd).
      apply handle_card_data_raises in Hd as [ [_ ->] | [_ [ -> | [ -> | -> ] ] ] ]; done.
    + by destruct (getAllMovies_not_Raise _ _ _ _ _ Hget).
  - intros [= _ ->]. by apply recommend_int_raises in Hrec as ->.
Qed.

Lemma main_raises_no_network_error_witness :
  network_error ValueError = false.
Proof.
  apply (main_raises_no_network_error ["A"; "B"] [[Q2Qc 1; Q2Qc (1 # 2)]; [Q2Qc (1 # 2); Q2Qc 1]]
           "A" 1
           (λ _ _, Responds 200 (Ok (PyDict {["imdbRating" := PyStr "abc"]})))
           [0%nat] [FinalizedAll 1]).
  vm_compute. reflexivity.
Defined.

(** X16: for a catalogue title, a square matrix and a count [K > 0], [main]
    ranks, fetches and renders in this order: it prints the lines of the
    batch for the first [K] titles of the ranker's list and hands the fetched values,
    in ranking order, to the rendering; at most [K] cards are rendered. *)
Theorem main_pipeline (new_movies_df : list string) (similarity : list (list Qc))
    (T : string) (K : Z) (net : Provider) (sched : list nat) :
  T ∈ new_movies_df →
  square new_movies_df similarity →
  0 < K →
  complete_schedule
    (length (take (Z.to_nat K) (recommendations_of new_movies_df similarity T))) sched →
  ∃ recommendations,
    recommendations = take (Z.to_nat K) (recommendations_of new_movies_df similarity T) ∧
    main new_movies_df similarity T K net sched =
      Some (batch_lines net recommendations sched
              ++ [FinalizedAll (length recommendations)],
            join_cards (batch_values net recommendations)) ∧
    ∀ html, join_cards (batch_values net recommendations) = Ok html →
            Z.of_nat (length html) ≤ K.
Proof.
  intros HT Hsq HK Hperm. eexists. split; [reflexivity|].
  set (recs := take (Z.to_nat K) (recommendations_of new_movies_df similarity T)) in *.
  split.
  - unfold main. rewrite recommend_spec by done. simpl.
    rewrite slice_stop_nonneg by lia. fold recs.
    by rewrite (getAllMovies_exact recs net sched Hperm).
  - intros html Hj. apply join_cards_length in Hj. rewrite Hj.
    pose proof (length_filter (λ data, absent data = false) (batch_values net recs)) as Hle.
    unfold batch_values in Hle at 2. rewrite length_imap in Hle.
    assert (length recs ≤ Z.to_nat K)%nat by (unfold recs; rewrite length_take; lia).
    lia.
Qed.

Lemma main_pipeline_witness :
  ∃ recommendations,
    recommendations = take (Z.to_nat 2) (recommendations_of example_titles example_similarity "Alpha") ∧
    main example_titles example_similarity "Alpha" 2 example_net [1; 0]%nat =
      Some (batch_lines example_net recommendations [1; 0]%nat
              ++ [FinalizedAll (length recommendations)],
            join_cards (batch_values example_net recommendations)) ∧
    ∀ html, join_cards (batch_values example_net recommendations) = Ok html →
            Z.of_nat (length html) ≤ 2.
Proof.
  apply main_pipeline.
  - apply (bool_decide_unpack _). vm_compute. reflexivity.
  - split; [reflexivity | repeat constructor].
  - lia.
  - exact (Permutation_cons_append [0]%nat 1%nat).
Defined.

(** ** What the skip of the first sorted entry does *)

(** X5: when the first sorted entry is a row whose title contains the query
    title (its own row, as a rule) and the count is at least the number of
    candidates, [recommend] returns every catalogue title that does not
    contain the query title, and nothing else. *)
Theorem recommend_complete (new_movies_df : list string) (similarity : list (list Qc))
    (T : string) (K : Z) (index : nat) (row : list Qc) (p : nat * Qc) (t : string) :
  list_find (λ t, t = T) new_movies_df = Some (index, T) →
  similarity !! index = Some row →
  length row = length new_movies_df →
  head (sorted_desc (enumerate row)) = Some p →
  new_movies_df !! p.1 = Some t →
  contains t T →
  Z.of_nat (length (recommendations_of new_movies_df similarity T)) ≤ K →
  ∃ l, recommend new_movies_df similarity T (PyInt K) = Ok l ∧
       ∀ t', t' ∈ l ↔ t' ∈ new_movies_df ∧ ¬ contains t' T.
Proof.
  intros Hf Hrow Hlen Hhead Ht Hc HK.
  exists (recommendations_of new_movies_df similarity T). split.
  - unfold recommend, title_index, similarity_row. rewrite Hf. simpl. rewrite Hrow. simpl.
    rewrite recommend_loop_spec.
    + simpl. unfold recommendations_of in *. rewrite Hf, Hrow in *. simpl in *.
      f_equal. apply take_ge. unfold slice_stop.
      destruct (K <? 0) eqn:HK0; [apply Z.ltb_lt in HK0; lia | lia].
    + by apply sorted_indices_in_range.
  - by eapply recommendations_of_complete.
Qed.

Lemma recommend_complete_witness :
  ∃ l, recommend example_titles example_similarity "Alpha" (PyInt 5) = Ok l ∧
       ∀ t', t' ∈ l ↔ t' ∈ example_titles ∧ ¬ contains t' "Alpha".
Proof.
  apply (recommend_complete example_titles example_similarity "Alpha" 5 0%nat
           [Q2Qc 1; Q2Qc (9 # 10); Q2Qc (95 # 100); Q2Qc (2 # 10)]
           (0%nat, Q2Qc 1) "Alpha").
  - vm_compute. reflexivity.
  - reflexivity.
  - reflexivity.
  - vm_compute. reflexivity.
  - reflexivity.
  - by exists EmptyString, EmptyString.
  - vm_compute. discriminate.
Defined.

(** X6: the skip of [distances[1:]] goes by position: the title of the
    first sorted row is never returned, whatever the count, when no other
    row of the catalogue has this title, also when it is not the query
    title. *)
Theorem recommend_skips_first_row (new_movies_df : list string)
    (similarity : list (list Qc)) (T : string) (length : PyVal)
    (index : nat) (row : list Qc) (p : nat * Qc) (t : string) (l : list string) :
  list_find (λ t, t = T) new_movies_df = Some (index, T) →
  similarity !! index = Some row →
  head (sorted_desc (enumerate row)) = Some p →
  new_movies_df !! p.1 = Some t →
  (∀ j, new_movies_df !! j = Some t → j = p.1) →
  recommend new_movies_df similarity T length = Ok l →
  t ∉ l.
Proof.
  intros Hf Hrow Hhead Ht Honly.
  unfold recommend, title_index, similarity_row. rewrite Hf. simpl. rewrite Hrow. simpl.
  destruct (recommend_loop_cases new_movies_df T (tail (sorted_desc (enumerate row))) [])
    as [[_ ->]|[_ ->]]; [|done]. simpl.
  intros Hl%py_slice_to_subseteq Hin.
  pose proof (elem_of_sublist _ _ _ Hin Hl) as (q & Hq & Hqt)%list_elem_of_omap.
  apply list_elem_of_filter in Hq as [_ Hq].
  apply Honly in Hqt.
  assert (NoDup (sorted_desc (enumerate row)).*1) as Hnd.
  { rewrite (sorted_desc_perm (enumerate row)).
    unfold enumerate. rewrite enumerate_from_fst. apply NoDup_seq. }
  destruct (sorted_desc (enumerate row)) as [|p' ds]; [done|].
  simpl in Hhead, Hq. injection Hhead as ->.
  rewrite fmap_cons in Hnd. apply NoDup_cons in Hnd as [Hnot _].
  apply Hnot. rewrite <- Hqt. apply list_elem_of_fmap. by exists q.
Qed.

Lemma recommend_skips_first_row_witness :
  "B" ∉ ["C"].
Proof.
  apply (recommend_skips_first_row ["B"; "A"; "C"]
           [ [Q2Qc 1; Q2Qc 1; Q2Qc (1 # 2)];
             [Q2Qc 1; Q2Qc 1; Q2Qc (1 # 2)];
             [Q2Qc (1 # 2); Q2Qc (1 # 2); Q2Qc 1] ]
           "A" (PyInt 2) 1%nat [Q2Qc 1; Q2Qc 1; Q2Qc (1 # 2)] (0%nat, Q2Qc 1) "B").
  - vm_compute. reflexivity.
  - reflexivity.
  - vm_compute. reflexivity.
  - reflexivity.
  - intros [|[|[|j]]]; simpl; intros H; try done; discriminate.
  - vm_compute. reflexivity.
Defined.

(** ** The ranker on a column with cells that are not texts *)

Section RankerCellsFacts.
Context (title_column : list Cell) (similarity : list (list Qc)).

Lemma recommend_loop_cells_returns (movie : string) (ds : list (nat * Qc))
    (acc : list Cell) :
  Forall (text_row title_column) ds →
  ∃ r, recommend_loop_cells title_column movie ds acc = Ok r.
Proof.
  intros Hall. revert acc. induction Hall as [|p ds [t Ht] _ IH]; intros acc; simpl.
  - by eexists.
  - unfold iloc_cell. rewrite Ht. simpl. destruct (str_in movie t); apply IH.
Qed.

(** The loop stops at the first row that has no text: with [IndexError]
    when the row number is beyond the column, with [TypeError] when the
    cell is not a text. *)
Lemma recommend_loop_cells_IndexError (movie : string) (front back : list (nat * Qc))
    (p : nat * Qc) (acc : list Cell) :
  Forall (text_row title_column) front →
  (length title_column ≤ p.1)%nat →
  recommend_loop_cells title_column movie (front ++ p :: back) acc = Raise IndexError.
Proof.
  intros Hall Hp. revert acc. induction Hall as [|q front [t Ht] _ IH]; intros acc; simpl.
  - unfold iloc_cell. by rewrite (lookup_ge_None_2 title_column) by lia.
  - unfold iloc_cell. rewrite Ht. simpl. destruct (str_in movie t); apply IH.
Qed.

Lemma recommend_loop_cells_TypeError (movie : string) (front back : list (nat * Qc))
    (p : nat * Qc) (acc : list Cell) :
  Forall (text_row title_column) front →
  title_column !! p.1 = Some NotText →
  recommend_loop_cells title_column movie (front ++ p :: back) acc = Raise TypeError.
Proof.
  intros Hall Hp. revert acc. induction Hall as [|q front [t Ht] _ IH]; intros acc; simpl.
  - unfold iloc_cell. by rewrite Hp.
  - unfold iloc_cell. rewrite Ht. simpl. destruct (str_in movie t); apply IH.
Qed.

Lemma first_row_without_text (ds : list (nat * Qc)) :
  Forall (text_row title_column) ds ∨
  ∃ front p back,
    ds = front ++ p :: back ∧
    Forall (text_row title_column) front ∧
    ((length title_column ≤ p.1)%nat ∨ title_column !! p.1 = Some NotText).
Proof.
  induction ds as [|p ds IH]; [by left|].
  destruct (title_column !! p.1) as [[t|]|] eqn:Hp.
  - destruct IH as [Hall|(front & q & back & -> & Hfront & Hq)].
    + left. constructor; [by exists t | done].
    + right. exists (p :: front), q, back. split; [done|]. split; [|done].
      constructor; [by exists t | done].
  - right. exists [], p, ds. split; [done|]. split; [constructor | by right].
  - right. exists [], p, ds. split; [done|]. split; [constructor|].
    left. by apply lookup_ge_None_1.
Qed.

Lemma recommend_cells_TypeError (movie : string) (length : PyVal)
    (index : nat) (row : list Qc) (front back : list (nat * Qc)) (p : nat * Qc) :
  list_find (λ c, c = Text movie) title_column = Some (index, Text movie) →
  similarity !! index = Some row →
  tail (sorted_desc (enumerate row)) = front ++ p :: back →
  Forall (text_row title_column) front →
  title_column !! p.1 = Some NotText →
  recommend_cells title_column similarity movie length = Raise TypeError.
Proof.
  intros Hf Hrow Hds Hfront Hp.
  unfold recommend_cells, title_index_cells. rewrite Hf. simpl. rewrite Hrow. simpl.
  by rewrite Hds, recommend_loop_cells_TypeError.
Qed.

Lemma recommend_cells_IndexError (movie : string) (length : PyVal) :
  Text movie ∉ title_column ∨
  (∃ index,
     list_find (λ c, c = Text movie) title_column = Some (index, Text movie) ∧
     (similarity !! index = None ∨
      ∃ row front p back,
        similarity !! index = Some row ∧
        tail (sorted_desc (enumerate row)) = front ++ p :: back ∧
        Forall (text_row title_column) front ∧
        (List.length title_column ≤ p.1)%nat)) →
  recommend_cells title_column similarity movie length = Raise IndexError.
Proof.
  unfold recommend_cells, title_index_cells.
  intros [Hnot|(index & Hf & [Hrow|(row & front & p & back & Hrow & Hds & Hfront & Hp)])].
  - assert (list_find (λ c, c = Text movie) title_column = None) as ->; [|done].
    apply list_find_None, Forall_forall. by intros c Hc ->.
  - rewrite Hf. simpl. by rewrite Hrow.
  - rewrite Hf. simpl. rewrite Hrow. simpl.
    by rewrite Hds, recommend_loop_cells_IndexError.
Qed.

(** With an integer count the ranker returns, or raises [IndexError] for
    one of its causes, or raises [TypeError] for its cause. *)
Lemma recommend_cells_cases (movie : string) (K : Z) :
  (∃ l, recommend_cells title_column similarity movie (PyInt K) = Ok l) ∨
  (Text movie ∉ title_column ∨
   ∃ index,
     list_find (λ c, c = Text movie) title_column = Some (index, Text movie) ∧
     (similarity !! index = None ∨
      ∃ row front p back,
        similarity !! index = Some row ∧
        tail (sorted_desc (enumerate row)) = front ++ p :: back ∧
        Forall (text_row title_column) front ∧
        (length title_column ≤ p.1)%nat)) ∨
  (∃ index row front p back,
     list_find (λ c, c = Text movie) title_column = Some (index, Text movie) ∧
     similarity !! index = Some row ∧
     tail (sorted_desc (enumerate row)) = front ++ p :: back ∧
     Forall (text_row title_column) front ∧
     title_column !! p.1 = Some NotText).
Proof.
  destruct (list_find (λ c, c = Text movie) title_column) as [[index c]|] eqn:Hf.
  - pose proof Hf as (Hidx & -> & _)%list_find_Some.
    destruct (similarity !! index) as [row|] eqn:Hrow.
    + destruct (first_row_without_text (tail (sorted_desc (enumerate row))))
        as [Hall|(front & p & back & Hds & Hfront & [Hp|Hp])].
      * left. unfold recommend_cells, title_index_cells.
        rewrite Hf. simpl. rewrite Hrow. simpl.
        destruct (recommend_loop_cells_returns movie _ [] Hall) as [r ->]. simpl.
        by eexists.
      * right. left. right. exists index. split; [done|]. right.
        by exists row, front, p, back.
      * right. right. by exists index, row, front, p, back.
    + right. left. right. exists index. split; [done|]. by left.
  - right. left. left. apply list_find_None in Hf. rewrite Forall_forall in Hf.
    intros Hin. by apply (Hf (Text movie)).
Qed.

(** X3: on a title column whose cells need not be texts, and with an
    integer count, [recommend] raises nothing but [IndexError] and
    [TypeError].  It raises [TypeError] exactly when the first row without
    a text, among the sorted entries behind the first one, holds a cell
    that is not a text.  It raises [IndexError] exactly when no cell is the
    title, when the matrix has no row for it, or when that first row
    without a text has a number beyond the column. *)
Theorem recommend_cells_raises (movie : string) (K : Z) :
  (∀ e, recommend_cells title_column similarity movie (PyInt K) = Raise e →
        e = IndexError ∨ e = TypeError) ∧
  (recommend_cells title_column similarity movie (PyInt K) = Raise TypeError ↔
   ∃ index row front p back,
     list_find (λ c, c = Text movie) title_column = Some (index, Text movie) ∧
     similarity !! index = Some row ∧
     tail (sorted_desc (enumerate row)) = front ++ p :: back ∧
     Forall (text_row title_column) front ∧
     title_column !! p.1 = Some NotText) ∧
  (recommend_cells title_column similarity movie (PyInt K) = Raise IndexError ↔
   Text movie ∉ title_column ∨
   ∃ index,
     list_find (λ c, c = Text movie) title_column = Some (index, Text movie) ∧
     (similarity !! index = None ∨
      ∃ row front p back,
        similarity !! index = Some row ∧
        tail (sorted_desc (enumerate row)) = front ++ p :: back ∧
        Forall (text_row title_column) front ∧
        (length title_column ≤ p.1)%nat)).
Proof.
  pose proof (recommend_cells_cases movie K) as Hcases.
  split; [|split; split].
  - intros e He. destruct Hcases as [[l Hl]|[HI|HT]].
    + congruence.
    + left. apply (recommend_cells_IndexError movie (PyInt K)) in HI. congruence.
    + right. destruct HT as (index & row & front & p & back & Hf & Hrow & Hds & Hfront & Hp).
      pose proof (recommend_cells_TypeError movie (PyInt K) _ _ _ _ _ Hf Hrow Hds Hfront Hp).
      congruence.
  - intros He. destruct Hcases as [[l Hl]|[HI|HT]]; [congruence| |done].
    apply (recommend_cells_IndexError movie (PyInt K)) in HI. congruence.
  - intros (index & row & front & p & back & Hf & Hrow & Hds & Hfront & Hp).
    by eapply recommend_cells_TypeError.
  - intros He. destruct Hcases as [[l Hl]|[HI|HT]]; [congruence|done|].
    destruct HT as (index & row & front & p & back & Hf & Hrow & Hds & Hfront & Hp).
    pose proof (recommend_cells_TypeError movie (PyInt K) _ _ _ _ _ Hf Hrow Hds Hfront Hp).
    congruence.
  - apply recommend_cells_IndexError.
Qed.

(** A blank title cell in the row ranked second makes the search
    [movie in title] raise. *)
Example recommend_cells_blank_title :
  recommend_cells [Text "B"; NotText; Text "A"] tie_similarity "B" (PyInt 5) =
    Raise TypeError.
Proof. vm_compute. reflexivity. Qed.

(** On a column of texts [recommend_cells] is [recommend]. *)
Lemma recommend_loop_cells_texts (new_movies_df : list string) (movie : string)
    (ds : list (nat * Qc)) (acc : list string) :
  recommend_loop_cells (Text <$> new_movies_df) movie ds (Text <$> acc) =
    match recommend_loop new_movies_df movie ds acc with
    | Ok l => Ok (Text <$> l)
    | Raise e => Raise e
    end.
Proof.
  revert acc. induction ds as [|p ds IH]; intros acc; simpl; [done|].
  unfold iloc_cell, iloc_title. rewrite list_lookup_fmap.
  destruct (new_movies_df !! p.1) as [t|]; simpl; [|done].
  destruct (str_in movie t); [apply IH|].
  rewrite <- IH. by rewrite fmap_app.
Qed.

Lemma list_find_texts (new_movies_df : list string) (movie : string) :
  list_find (λ c, c = Text movie) (Text <$> new_movies_df) =
    prod_map id Text <$> list_find (λ t, t = movie) new_movies_df.
Proof.
  destruct (list_find (λ t, t = movie) new_movies_df) as [[i t]|] eqn:Hf; simpl.
  - apply list_find_Some in Hf as (Hi & -> & Hleast).
    apply list_find_Some. split; [by rewrite list_lookup_fmap, Hi|]. split; [done|].
    intros j c. rewrite list_lookup_fmap.
    destruct (new_movies_df !! j) as [t|] eqn:Hj; simpl; [|done].
    intros [= <-] Hlt [= ->]. by apply (Hleast j movie).
  - apply list_find_None in Hf. apply list_find_None.
    apply Forall_fmap. eapply Forall_impl; [exact Hf|].
    intros t Ht [= ->]. by apply Ht.
Qed.
End RankerCellsFacts.

Lemma recommend_cells_texts (new_movies_df : list string) (similarity : list (list Qc))
    (movie : string) (length : PyVal) :
  recommend_cells (Text <$> new_movies_df) similarity movie length =
    match recommend new_movies_df similarity movie length with
    | Ok l => Ok (Text <$> l)
    | Raise e => Raise e
    end.
Proof.
  unfold recommend_cells, recommend, title_index_cells, title_index, similarity_row.
  rewrite list_find_texts.
  destruct (list_find (λ t, t = movie) new_movies_df) as [[index t]|]; simpl; [|done].
  destruct (similarity !! index) as [row|]; simpl; [|done].
  rewrite (recommend_loop_cells_texts new_movies_df movie _ []).
  destruct (recommend_loop new_movies_df movie _ []) as [l|]; simpl; [|done].
  destruct length; simpl; try done; by rewrite fmap_take, ?length_fmap.
Qed.
